(** * Hypriot provisioner (libmachine/provision/hypriot.go)

    A shallow embedding of the Hypriot provisioner of docker-machine and the
    properties its specification states about it.

    The provisioner drives a remote host through an SSH command channel and a
    handful of collaborators of the [provision] package.  The embedding keeps
    the shape of the Go code:

    - the provisioner struct is a record, mutated through a state monad over
      a [World] (the provisioner together with the log of everything that was
      issued to the outside);
    - a Go [error] result is an [option error] ([None] is [nil]);
    - the remote executor and the collaborators that live outside
      [hypriot.go] are the fields of an environment record [Env];
    - [text/template] is modelled by a small template engine (lexer, parser
      and executor) for the constructs the engine-config template uses, and
      the template itself is the source's string. *)

From Stdlib Require Import String Ascii List ZArith Bool Lia DecimalString.
Import ListNotations.
Local Open Scope list_scope.
Local Open Scope string_scope.

Set Implicit Arguments.
Set Warnings "-register-all".

(** ** Data model *)

(** Go's [error]: only the message matters here. *)
Definition error := string.

(** Modelled from the spec: [pkgaction.PackageAction] is declared outside
    [hypriot.go]; the spec gives it as the enumeration Install, Remove,
    Upgrade. *)
Inductive PackageAction := Install | Remove | Upgrade.

(** Modelled from the spec: [serviceaction.ServiceAction] is declared outside
    [hypriot.go]; the spec gives it as an enumeration of actions "mapped to a
    textual command verb". *)
Inductive ServiceAction := Restart | Start | Stop.

Definition ServiceAction_String (a : ServiceAction) : string :=
  match a with
  | Restart => "restart"
  | Start => "start"
  | Stop => "stop"
  end.

(** Modelled from the spec: [auth.Options] is declared outside [hypriot.go];
    the fields kept are the three remote paths the template reads. *)
Record AuthOptions := mkAuthOptions {
  CaCertRemotePath : string;
  ServerCertRemotePath : string;
  ServerKeyRemotePath : string
}.

(** Modelled from the spec: [engine.Options], the fields the provisioner and
    its template read. *)
Record EngineOptions := mkEngineOptions {
  StorageDriver : string;
  Labels : list string;
  InsecureRegistry : list string;
  RegistryMirror : list string;
  ArbitraryFlags : list string
}.

(** Modelled from the spec: [swarm.Options], "image reference and membership
    parameters"; the parameters are opaque to the provisioner. *)
Record SwarmOptions := mkSwarmOptions {
  Image : string;
  Membership : list string
}.

(** [drivers.Driver] is an interface declared outside [hypriot.go]; a driver
    is taken through the results of the two methods the provisioner calls. *)
Record Driver := mkDriver {
  GetMachineName : string;
  DriverName : string
}.

(** Modelled from the spec: the OS release the detector fetched from the
    host before it asks a provisioner ("a previously-fetched OS-release
    identifier field"); [ID] is the field the provisioner compares. *)
Record OsRelease := mkOsRelease {
  ID : string
}.

(** [HypriotProvisioner], that is the [GenericProvisioner] it embeds.
    Modelled from the spec: [GenericProvisioner] is declared outside
    [hypriot.go]; its fields here are those [hypriot.go] reads and writes
    (the spec's "OS-release identifier string to match, default filesystem
    paths for daemon config and options directory, an initial package list"
    and the three option structs).  The [SSHCommander] field is the remote
    executor of the environment. *)
Record Provisioner := mkProvisioner {
  DockerOptionsDir : string;
  DaemonOptionsFile : string;
  OsReleaseID : string;
  Packages : list string;
  OsReleaseInfo : OsRelease;
  ProvDriver : Driver;
  ProvSwarmOptions : SwarmOptions;
  ProvAuthOptions : AuthOptions;
  ProvEngineOptions : EngineOptions
}.

(** Modelled from the spec: [DockerOptions], "a file path plus file content
    string", declared outside [hypriot.go]. *)
Record DockerOptions := mkDockerOptions {
  EngineOptionsContent : string;
  EngineOptionsPath : string
}.

(** [EngineConfigContext], declared outside [hypriot.go], with the three
    fields [GenerateDockerOptions] fills.  [DockerPort] is a Go [int]. *)
Record EngineConfigContext := mkEngineConfigContext {
  CtxDockerPort : Z;
  CtxAuthOptions : AuthOptions;
  CtxEngineOptions : EngineOptions
}.

(** Field updates of the provisioner struct. *)
Definition set_Packages (l : list string) (p : Provisioner) : Provisioner :=
  mkProvisioner (DockerOptionsDir p) (DaemonOptionsFile p) (OsReleaseID p) l
    (OsReleaseInfo p) (ProvDriver p) (ProvSwarmOptions p) (ProvAuthOptions p)
    (ProvEngineOptions p).

Definition set_SwarmOptions (o : SwarmOptions) (p : Provisioner) : Provisioner :=
  mkProvisioner (DockerOptionsDir p) (DaemonOptionsFile p) (OsReleaseID p)
    (Packages p) (OsReleaseInfo p) (ProvDriver p) o (ProvAuthOptions p)
    (ProvEngineOptions p).

Definition set_AuthOptions (o : AuthOptions) (p : Provisioner) : Provisioner :=
  mkProvisioner (DockerOptionsDir p) (DaemonOptionsFile p) (OsReleaseID p)
    (Packages p) (OsReleaseInfo p) (ProvDriver p) (ProvSwarmOptions p) o
    (ProvEngineOptions p).

Definition set_EngineOptions (o : EngineOptions) (p : Provisioner) : Provisioner :=
  mkProvisioner (DockerOptionsDir p) (DaemonOptionsFile p) (OsReleaseID p)
    (Packages p) (OsReleaseInfo p) (ProvDriver p) (ProvSwarmOptions p)
    (ProvAuthOptions p) o.

Definition set_OsReleaseInfo (o : OsRelease) (p : Provisioner) : Provisioner :=
  mkProvisioner (DockerOptionsDir p) (DaemonOptionsFile p) (OsReleaseID p)
    (Packages p) o (ProvDriver p) (ProvSwarmOptions p) (ProvAuthOptions p)
    (ProvEngineOptions p).

Definition set_StorageDriver (s : string) (o : EngineOptions) : EngineOptions :=
  mkEngineOptions s (Labels o) (InsecureRegistry o) (RegistryMirror o)
    (ArbitraryFlags o).

Definition set_Labels (l : list string) (o : EngineOptions) : EngineOptions :=
  mkEngineOptions (StorageDriver o) l (InsecureRegistry o) (RegistryMirror o)
    (ArbitraryFlags o).

Definition set_Image (s : string) (o : SwarmOptions) : SwarmOptions :=
  mkSwarmOptions s (Membership o).

(** The zero values of the option structs. *)
Definition zero_AuthOptions : AuthOptions := mkAuthOptions "" "" "".
Definition zero_EngineOptions : EngineOptions := mkEngineOptions "" [] [] [] [].
Definition zero_SwarmOptions : SwarmOptions := mkSwarmOptions "" [].

Definition NewHypriotProvisioner (d : Driver) : Provisioner :=
  {| DockerOptionsDir := "/etc/docker";
     DaemonOptionsFile := "/etc/default/docker";
     OsReleaseID := "raspbian";
     Packages := [];
     OsReleaseInfo := mkOsRelease "";
     ProvDriver := d;
     ProvSwarmOptions := zero_SwarmOptions;
     ProvAuthOptions := zero_AuthOptions;
     ProvEngineOptions := zero_EngineOptions |}.

Definition Provisioner_String (p : Provisioner) : string := "hypriot".

(** ** text/template, for the constructs the engine-config template uses *)

Module Template.

(** A parsed template: literal text, a field chain evaluated on the current
    dot ([{{.A.B}}], and [{{.}}] for the empty chain), and [range] over a
    field chain with its body. *)
Inductive node :=
| NText (s : string)
| NField (path : list string)
| NRange (path : list string) (body : list node).

(** The data a template is executed on, as reflection sees it. *)
Inductive value :=
| VInt (z : Z)
| VString (s : string)
| VSlice (l : list value)
| VStruct (fields : list (string * value)).

Inductive token :=
| TText (s : string)
| TAction (s : string).

Definition snoc (s : string) (c : ascii) : string := s ++ String c EmptyString.

Definition text_token (acc : string) : list token :=
  match acc with
  | EmptyString => []
  | _ => [TText acc]
  end.

(** The lexer: text up to the left delimiter, then an action up to the right
    delimiter.  [None] is an action that is not closed. *)
Fixpoint lex (in_action : bool) (acc : string) (s : string) : option (list token) :=
  match s with
  | EmptyString => if in_action then None else Some (text_token acc)
  | String c s' =>
      if in_action then
        match c, s' with
        | "}"%char, String "}"%char s'' =>
            option_map (cons (TAction acc)) (lex false EmptyString s'')
        | _, _ => lex true (snoc acc c) s'
        end
      else
        match c, s' with
        | "{"%char, String "{"%char s'' =>
            option_map (app (text_token acc)) (lex true EmptyString s'')
        | _, _ => lex false (snoc acc c) s'
        end
  end.

Fixpoint trim_left (s : string) : string :=
  match s with
  | String " "%char s' => trim_left s'
  | _ => s
  end.

Fixpoint rev_string (s acc : string) : string :=
  match s with
  | EmptyString => acc
  | String c s' => rev_string s' (String c acc)
  end.

Definition trim (s : string) : string :=
  rev_string (trim_left (rev_string (trim_left s) EmptyString)) EmptyString.

(** Splits [A.B.C] at the dots. *)
Fixpoint split_dots (s : string) (acc : string) : list string :=
  match s with
  | EmptyString => [acc]
  | String "."%char s' => acc :: split_dots s' EmptyString
  | String c s' => split_dots s' (snoc acc c)
  end.

Definition nonempty (s : string) : bool :=
  match s with
  | EmptyString => false
  | _ => true
  end.

(** A field chain: [.] is the dot itself, [.A.B] a chain of field names. *)
Definition parse_chain (s : string) : option (list string) :=
  match s with
  | String "."%char EmptyString => Some []
  | String "."%char s' =>
      let names := split_dots s' EmptyString in
      if forallb nonempty names then Some names else None
  | _ => None
  end.

Inductive action :=
| AEnd
| ARange (path : list string)
| AField (path : list string)
| ABad.

Definition classify (a : string) : action :=
  let a := trim a in
  if String.eqb a "end" then AEnd
  else if String.prefix "range " a then
    match parse_chain (trim (substring 6 (String.length a - 6) a)) with
    | Some p => ARange p
    | None => ABad
    end
  else
    match parse_chain a with
    | Some p => AField p
    | None => ABad
    end.

(** The parser: [cur] holds the nodes of the list being read, last first;
    [stack] the enclosing [range] actions with the nodes read before them. *)
Fixpoint parse_tokens (ts : list token) (cur : list node)
    (stack : list (list string * list node)) : list node + error :=
  match ts with
  | [] =>
      match stack with
      | [] => inl (rev cur)
      | _ :: _ => inr "template: unexpected EOF"
      end
  | TText s :: ts' => parse_tokens ts' (NText s :: cur) stack
  | TAction a :: ts' =>
      match classify a with
      | AEnd =>
          match stack with
          | (p, outer) :: stack' =>
              parse_tokens ts' (NRange p (rev cur) :: outer) stack'
          | [] => inr "template: unexpected {{end}}"
          end
      | ARange p => parse_tokens ts' [] ((p, cur) :: stack)
      | AField p => parse_tokens ts' (NField p :: cur) stack
      | ABad => inr "template: bad action"
      end
  end.

(** [template.New(name).Parse(text)], for the actions above: it is applied
    to the engine-config template only, and stands for [text/template] on
    that text, not on template texts with other actions. *)
Definition Parse (text : string) : list node + error :=
  match lex false EmptyString text with
  | None => inr "template: unclosed action"
  | Some ts => parse_tokens ts [] []
  end.

Fixpoint lookup_field (name : string) (fields : list (string * value)) : option value :=
  match fields with
  | [] => None
  | (n, v) :: rest => if String.eqb n name then Some v else lookup_field name rest
  end.

Fixpoint eval_chain (path : list string) (dot : value) : option value :=
  match path with
  | [] => Some dot
  | name :: path' =>
      match dot with
      | VStruct fields =>
          match lookup_field name fields with
          | Some v => eval_chain path' v
          | None => None
          end
      | _ => None
      end
  end.

Definition print_int (z : Z) : string := NilZero.string_of_int (Z.to_int z).

Definition join_space (l : list string) : string :=
  match l with
  | [] => EmptyString
  | x :: rest => fold_left (fun acc y => (acc ++ " " ++ y)%string) rest x
  end.

(** What [fmt.Fprint] writes for a value. *)
Fixpoint print_value (v : value) : string :=
  match v with
  | VInt z => print_int z
  | VString s => s
  | VSlice l => ("[" ++ join_space (map print_value l) ++ "]")%string
  | VStruct fields =>
      ("{" ++ join_space (map (fun f => print_value (snd f)) fields) ++ "}")%string
  end.

(** Execution writes to the buffer as it goes: on an error the buffer keeps
    what was written before it. *)
Fixpoint exec_node (n : node) (dot : value) (buf : string) : string * option error :=
  match n with
  | NText s => (buf ++ s, None)
  | NField path =>
      match eval_chain path dot with
      | Some v => (buf ++ print_value v, None)
      | None => (buf, Some "template: can't evaluate field")
      end
  | NRange path body =>
      match eval_chain path dot with
      | Some (VSlice elems) =>
          (fix each (elems : list value) (buf : string) : string * option error :=
             match elems with
             | [] => (buf, None)
             | e :: elems' =>
                 match
                   (fix seq (ns : list node) (buf : string) : string * option error :=
                      match ns with
                      | [] => (buf, None)
                      | n' :: ns' =>
                          match exec_node n' e buf with
                          | (buf', None) => seq ns' buf'
                          | r => r
                          end
                      end) body buf
                 with
                 | (buf', None) => each elems' buf'
                 | r => r
                 end
             end) elems buf
      | _ => (buf, Some "template: range can't iterate over value")
      end
  end.

Fixpoint exec_nodes (ns : list node) (dot : value) (buf : string) : string * option error :=
  match ns with
  | [] => (buf, None)
  | n :: ns' =>
      match exec_node n dot buf with
      | (buf', None) => exec_nodes ns' dot buf'
      | r => r
      end
  end.

Fixpoint exec_range (body : list node) (elems : list value) (buf : string)
    : string * option error :=
  match elems with
  | [] => (buf, None)
  | e :: elems' =>
      match exec_nodes body e buf with
      | (buf', None) => exec_range body elems' buf'
      | r => r
      end
  end.

(** [t.Execute(&buf, data)] on an empty buffer. *)
Definition Execute (t : list node) (data : value) : string * option error :=
  exec_nodes t data EmptyString.

End Template.

(** ** The world the provisioner acts on *)

(** Calls to the collaborators of the [provision] package that are defined
    outside [hypriot.go]. *)
Inductive Call :=
| CallSetHostname (hostname : string)
| CallMakeDockerOptionsDir
| CallConfigureAuth
| CallConfigureSwarm (swarmOptions : SwarmOptions) (authOptions : AuthOptions).

(** What the provisioner issues to the outside, in the order it does. *)
Inductive Event :=
| EvSSH (command : string)
| EvCall (c : Call)
| EvSleep (seconds : nat).

(** The environment of a run.
    - [ssh] is [SSHCommand]: whether a command fails, given what was issued
      before it (its output is never read in [hypriot.go]);
    - [collab] is a collaborator called with the provisioner: it may update
      the provisioner it is handed and reports an error or [nil];
    - [setRemoteAuthOptions] computes the auth options with their remote
      paths from the provisioner;
    - [waitAttempts] and [waitTimeout] are the budget and the error of
      [mcnutils.WaitFor]. *)
Record Env := mkEnv {
  ssh : list Event -> string -> option error;
  collab : list Event -> Call -> Provisioner -> Provisioner * option error;
  setRemoteAuthOptions : Provisioner -> AuthOptions;
  waitAttempts : nat;
  waitTimeout : error
}.

Record World := mkWorld {
  prov : Provisioner;
  log : list Event
}.

(** The state monad over the world. *)
Definition M (A : Type) : Type := World -> A * World.

Definition ret {A : Type} (a : A) : M A := fun w => (a, w).

Definition bind {A B : Type} (m : M A) (k : A -> M B) : M B :=
  fun w => let (a, w') := m w in k a w'.

Declare Scope prov_scope.
Delimit Scope prov_scope with prov.
Notation "x <- m ;; k" := (bind m (fun x => k))
  (at level 61, m at next level, right associativity) : prov_scope.
Notation "m ;; k" := (bind m (fun _ => k))
  (at level 61, right associativity) : prov_scope.

(** [if err := m; err != nil { return err }] followed by [k]. *)
Definition check (m : M (option error)) (k : M (option error)) : M (option error) :=
  bind m (fun err => match err with
                     | Some e => ret (Some e)
                     | None => k
                     end).

Notation "'check!' m ;; k" := (check m k)
  (at level 61, m at next level, right associativity) : prov_scope.

Local Open Scope prov_scope.

Definition get_prov : M Provisioner := fun w => (prov w, w).

Definition modify_prov (f : Provisioner -> Provisioner) : M unit :=
  fun w => (tt, mkWorld (f (prov w)) (log w)).

Definition emit (e : Event) : M unit :=
  fun w => (tt, mkWorld (prov w) (log w ++ [e])%list).

(** ** GenerateDockerOptions *)

Definition nl : string := String (ascii_of_nat 10) EmptyString.

Definition engineConfigTmpl : string :=
  nl ++
  "DOCKER_OPTS='-H tcp://0.0.0.0:{{.DockerPort}} -H unix:///var/run/docker.sock --storage-driver {{.EngineOptions.StorageDriver}} --tlsverify --tlscacert {{.AuthOptions.CaCertRemotePath}} --tlscert {{.AuthOptions.ServerCertRemotePath}} --tlskey {{.AuthOptions.ServerKeyRemotePath}} {{ range .EngineOptions.Labels }}--label {{.}} {{ end }}{{ range .EngineOptions.InsecureRegistry }}--insecure-registry {{.}} {{ end }}{{ range .EngineOptions.RegistryMirror }}--registry-mirror {{.}} {{ end }}{{ range .EngineOptions.ArbitraryFlags }}--{{.}} {{ end }}'"
  ++ nl.

(** The context struct as the template engine sees it. *)
Definition strings_value (l : list string) : Template.value :=
  Template.VSlice (map Template.VString l).

Definition AuthOptions_value (o : AuthOptions) : Template.value :=
  Template.VStruct
    [("CaCertRemotePath", Template.VString (CaCertRemotePath o));
     ("ServerCertRemotePath", Template.VString (ServerCertRemotePath o));
     ("ServerKeyRemotePath", Template.VString (ServerKeyRemotePath o))].

Definition EngineOptions_value (o : EngineOptions) : Template.value :=
  Template.VStruct
    [("StorageDriver", Template.VString (StorageDriver o));
     ("Labels", strings_value (Labels o));
     ("InsecureRegistry", strings_value (InsecureRegistry o));
     ("RegistryMirror", strings_value (RegistryMirror o));
     ("ArbitraryFlags", strings_value (ArbitraryFlags o))].

Definition EngineConfigContext_value (c : EngineConfigContext) : Template.value :=
  Template.VStruct
    [("DockerPort", Template.VInt (CtxDockerPort c));
     ("AuthOptions", AuthOptions_value (CtxAuthOptions c));
     ("EngineOptions", EngineOptions_value (CtxEngineOptions c))].

(** [GenerateDockerOptions]: the label is appended to the provisioner's own
    labels, the error of [Parse] is returned, the error of [Execute] is not
    looked at. *)
Definition GenerateDockerOptions (dockerPort : Z)
    : M (option DockerOptions * option error) :=
  p <- get_prov ;;
  let driverNameLabel := "provider=" ++ DriverName (ProvDriver p) in
  modify_prov (fun p =>
    set_EngineOptions
      (set_Labels (Labels (ProvEngineOptions p) ++ [driverNameLabel])%list
         (ProvEngineOptions p)) p) ;;
  match Template.Parse engineConfigTmpl with
  | inr err => ret (None, Some err)
  | inl t =>
      p <- get_prov ;;
      let engineConfigContext :=
        {| CtxDockerPort := dockerPort;
           CtxAuthOptions := ProvAuthOptions p;
           CtxEngineOptions := ProvEngineOptions p |} in
      let engineCfg :=
        fst (Template.Execute t (EngineConfigContext_value engineConfigContext)) in
      ret (Some {| EngineOptionsContent := engineCfg;
                   EngineOptionsPath := DaemonOptionsFile p |}, None)
  end.

(** ** The provisioner's methods *)

Section Hypriot.

Variable env : Env.

(** [provisioner.SSHCommand(command)]: the command is issued, and the
    executor tells whether it failed. *)
Definition SSHCommand (command : string) : M (option error) :=
  fun w => (ssh env (log w) command,
            mkWorld (prov w) (log w ++ [EvSSH command])%list).

(** A call of a collaborator with the provisioner.  The log records the call
    as one event: the commands the collaborator issues on the host while it
    runs are not in the log. *)
Definition call (c : Call) : M (option error) :=
  fun w => let (p', err) := collab env (log w) c (prov w) in
           (err, mkWorld p' (log w ++ [EvCall c])%list).

Definition SetHostname (hostname : string) : M (option error) :=
  call (CallSetHostname hostname).

Definition makeDockerOptionsDir : M (option error) :=
  call CallMakeDockerOptionsDir.

Definition ConfigureAuth : M (option error) :=
  call CallConfigureAuth.

Definition configureSwarm (swarmOptions : SwarmOptions) (authOptions : AuthOptions)
    : M (option error) :=
  call (CallConfigureSwarm swarmOptions authOptions).

(** [time.Sleep(n * time.Second)]. *)
Definition Sleep (seconds : nat) : M unit := emit (EvSleep seconds).

(** Modelled from the spec: [mcnutils.WaitFor] is defined outside
    [hypriot.go]; the spec gives it as a poller that "repeatedly invokes a
    supplied zero-argument boolean probe on a fixed interval until it returns
    true or an overall timeout elapses; returns a Timeout failure in the
    latter case".  The budget is a number of attempts. *)
Fixpoint WaitFor_attempts (n : nat) (f : M bool) : M (option error) :=
  match n with
  | O => ret (Some (waitTimeout env))
  | S n' =>
      ok <- f ;;
      if ok : bool then ret None else WaitFor_attempts n' f
  end.

Definition WaitFor (f : M bool) : M (option error) :=
  WaitFor_attempts (waitAttempts env) f.

Definition CompatibleWithHost : M bool :=
  err <- SSHCommand "cat /etc/hypriot_release" ;;
  match err with
  | Some _ => ret false
  | None =>
      p <- get_prov ;;
      ret (String.eqb (ID (OsReleaseInfo p)) (OsReleaseID p))
  end.

Definition Service (name : string) (action : ServiceAction) : M (option error) :=
  let command := "sudo service " ++ name ++ " " ++ ServiceAction_String action in
  check! SSHCommand command ;;
  ret None.

Definition Package (name : string) (action : PackageAction) : M (option error) :=
  let '(packageAction, updateMetadata) :=
    match action with
    | Install => ("install", true)
    | Remove => ("remove", false)
    | Upgrade => ("install", true)
    end in
  let name := if String.eqb name "docker" then "docker-hypriot" else name in
  check! (if updateMetadata : bool
          then
            (* invoke apt-get update for metadata *)
            SSHCommand "sudo -E apt-get update"
          else ret None) ;;
  let command :=
    "DEBIAN_FRONTEND=noninteractive sudo -E apt-get " ++ packageAction ++ " -y " ++ name in
  check! SSHCommand command ;;
  ret None.

Definition dockerDaemonResponding : M bool :=
  err <- SSHCommand "sudo docker version" ;;
  match err with
  | Some _ => ret false
  | None =>
      (* The daemon is up if the command worked.  Carry on. *)
      ret true
  end.

Definition dockerDaemonInstalled : M bool :=
  err <- SSHCommand "type docker" ;;
  match err with
  | Some _ => ret false
  | None => ret true
  end.

Definition dockerDaemonRunning : M bool :=
  err <- SSHCommand "sudo service docker status" ;;
  match err with
  | Some _ => ret false
  | None => ret true
  end.

Definition setHostnameHypriot (hostname : string) : M (option error) :=
  check! SSHCommand
    ("if [ -f /boot/occidentalis.txt ]; then sudo sed -i 's/^hostname.*=.*/hostname="
     ++ hostname ++ "/g' /boot/occidentalis.txt; fi") ;;
  ret None.

Definition setHypriotAptRepo : M (option error) :=
  check! SSHCommand "if [ ! -f /etc/apt/sources.list.d/hypriot.list ] || grep -q repository.hypriot.com /etc/apt/sources.list.d/hypriot.list; then (curl https://packagecloud.io/gpg.key | sudo apt-key add -); echo 'deb https://packagecloud.io/Hypriot/Schatzkiste/debian/ wheezy main' | sudo tee /etc/apt/sources.list.d/hypriot.list; fi" ;;
  ret None.

(** [for _, pkg := range provisioner.Packages { ... }] of [Provision]. *)
Fixpoint range_Packages (pkgs : list string) : M (option error) :=
  match pkgs with
  | [] => ret None
  | pkg :: rest =>
      check! Package pkg Install ;;
      range_Packages rest
  end.

Definition Provision (swarmOptions : SwarmOptions) (authOptions : AuthOptions)
    (engineOptions : EngineOptions) : M (option error) :=
  modify_prov (set_SwarmOptions swarmOptions) ;;
  modify_prov (set_AuthOptions authOptions) ;;
  modify_prov (set_EngineOptions engineOptions) ;;

  p <- get_prov ;;
  (if String.eqb (StorageDriver (ProvEngineOptions p)) ""
   then modify_prov (fun p =>
          set_EngineOptions (set_StorageDriver "overlay" (ProvEngineOptions p)) p)
   else ret tt) ;;

  check! (p <- get_prov ;; SetHostname (GetMachineName (ProvDriver p))) ;;

  check! (p <- get_prov ;; setHostnameHypriot (GetMachineName (ProvDriver p))) ;;

  check! Package "apt-transport-https" Install ;;

  check! setHypriotAptRepo ;;

  installed <- dockerDaemonInstalled ;;
  (if negb installed
   then modify_prov (fun p => set_Packages (Packages p ++ ["docker"])%list p)
   else ret tt) ;;

  check! (p <- get_prov ;; range_Packages (Packages p)) ;;

  running <- dockerDaemonRunning ;;
  check! (if negb running then Service "docker" Start else ret None) ;;

  check! WaitFor dockerDaemonResponding ;;

  check! makeDockerOptionsDir ;;

  (p <- get_prov ;; modify_prov (set_AuthOptions (setRemoteAuthOptions env p))) ;;

  check! ConfigureAuth ;;

  Sleep 2 ;;

  let swarmOptions :=
    if String.eqb (Image swarmOptions) "swarm:latest"
    then set_Image "hypriot/rpi-swarm:latest" swarmOptions
    else swarmOptions in
  check! (p <- get_prov ;; configureSwarm swarmOptions (ProvAuthOptions p)) ;;

  ret None.

(** *** The pipeline of [Provision], step by step *)

Inductive Step :=
| StepHostname
| StepHostnameFile
| StepAptTransport
| StepAptRepo
| StepDockerInstall
| StepPackages
| StepServiceStart
| StepWait
| StepOptionsDir
| StepAuth
| StepSwarm.

Definition pipeline : list Step :=
  [StepHostname; StepHostnameFile; StepAptTransport; StepAptRepo;
   StepDockerInstall; StepPackages; StepServiceStart; StepWait;
   StepOptionsDir; StepAuth; StepSwarm].

(** The assignments [Provision] starts with, the storage-driver default
    among them. *)
Definition Provision_begin (swarmOptions : SwarmOptions) (authOptions : AuthOptions)
    (engineOptions : EngineOptions) : M unit :=
  modify_prov (set_SwarmOptions swarmOptions) ;;
  modify_prov (set_AuthOptions authOptions) ;;
  modify_prov (set_EngineOptions engineOptions) ;;
  p <- get_prov ;;
  (if String.eqb (StorageDriver (ProvEngineOptions p)) ""
   then modify_prov (fun p =>
          set_EngineOptions (set_StorageDriver "overlay" (ProvEngineOptions p)) p)
   else ret tt).

(** The image handed to [configureSwarm]. *)
Definition swarm_image (swarmOptions : SwarmOptions) : SwarmOptions :=
  if String.eqb (Image swarmOptions) "swarm:latest"
  then set_Image "hypriot/rpi-swarm:latest" swarmOptions
  else swarmOptions.

(** The statements of [Provision] that make up each step. *)
Definition step_action (swarmOptions : SwarmOptions) (s : Step) : M (option error) :=
  match s with
  | StepHostname =>
      p <- get_prov ;; SetHostname (GetMachineName (ProvDriver p))
  | StepHostnameFile =>
      p <- get_prov ;; setHostnameHypriot (GetMachineName (ProvDriver p))
  | StepAptTransport => Package "apt-transport-https" Install
  | StepAptRepo => setHypriotAptRepo
  | StepDockerInstall =>
      installed <- dockerDaemonInstalled ;;
      (if negb installed
       then modify_prov (fun p => set_Packages (Packages p ++ ["docker"])%list p)
       else ret tt) ;;
      ret None
  | StepPackages => p <- get_prov ;; range_Packages (Packages p)
  | StepServiceStart =>
      running <- dockerDaemonRunning ;;
      if negb running then Service "docker" Start else ret None
  | StepWait => WaitFor dockerDaemonResponding
  | StepOptionsDir => makeDockerOptionsDir
  | StepAuth =>
      (p <- get_prov ;; modify_prov (set_AuthOptions (setRemoteAuthOptions env p))) ;;
      ConfigureAuth
  | StepSwarm =>
      Sleep 2 ;;
      p <- get_prov ;; configureSwarm (swarm_image swarmOptions) (ProvAuthOptions p)
  end.

(** Runs every step of a list, whatever the outcomes, and collects them. *)
Fixpoint exec_all (swarmOptions : SwarmOptions) (steps : list Step) (w : World)
    : list (option error) * World :=
  match steps with
  | [] => ([], w)
  | s :: rest =>
      let (r, w1) := step_action swarmOptions s w in
      let (rs, w2) := exec_all swarmOptions rest w1 in
      (r :: rs, w2)
  end.

(** Runs the steps of a list up to the first one that fails. *)
Fixpoint run_checked (swarmOptions : SwarmOptions) (steps : list Step) : M (option error) :=
  match steps with
  | [] => ret None
  | s :: rest =>
      check! step_action swarmOptions s ;;
      run_checked swarmOptions rest
  end.

End Hypriot.

(** ** Measures on rendered text *)

(** Number of positions of [s] at which [pat] occurs. *)
Fixpoint count_sub (pat s : string) : nat :=
  match s with
  | EmptyString => if String.prefix pat EmptyString then 1 else 0
  | String _ s' => (if String.prefix pat s then 1 else 0) + count_sub pat s'
  end.

(** [contains pat s]: [pat] occurs in [s]. *)
Definition contains (pat s : string) : Prop :=
  exists pre post, s = pre ++ pat ++ post.

(** The text the template renders, written out. *)
Definition label_token (l : string) : string := "--label " ++ l ++ " ".
Definition insecure_registry_token (r : string) : string :=
  "--insecure-registry " ++ r ++ " ".
Definition registry_mirror_token (m : string) : string :=
  "--registry-mirror " ++ m ++ " ".
Definition flag_token (f : string) : string := "--" ++ f ++ " ".

Definition concat_tokens (tok : string -> string) (l : list string) : string :=
  String.concat "" (map tok l).

Definition render_header (dockerPort : Z) (sd : string) (a : AuthOptions) : string :=
  nl ++ "DOCKER_OPTS='-H tcp://0.0.0.0:" ++ Template.print_int dockerPort
  ++ " -H unix:///var/run/docker.sock --storage-driver " ++ sd
  ++ " --tlsverify --tlscacert " ++ CaCertRemotePath a
  ++ " --tlscert " ++ ServerCertRemotePath a
  ++ " --tlskey " ++ ServerKeyRemotePath a ++ " ".

Definition render (c : EngineConfigContext) : string :=
  render_header (CtxDockerPort c) (StorageDriver (CtxEngineOptions c)) (CtxAuthOptions c)
  ++ concat_tokens label_token (Labels (CtxEngineOptions c))
  ++ concat_tokens insecure_registry_token (InsecureRegistry (CtxEngineOptions c))
  ++ concat_tokens registry_mirror_token (RegistryMirror (CtxEngineOptions c))
  ++ concat_tokens flag_token (ArbitraryFlags (CtxEngineOptions c))
  ++ "'" ++ nl.


(** The tree of the engine-config template. *)
Definition engineConfigNodes : list Template.node :=
  [Template.NText (nl ++ "DOCKER_OPTS='-H tcp://0.0.0.0:");
   Template.NField ["DockerPort"];
   Template.NText " -H unix:///var/run/docker.sock --storage-driver ";
   Template.NField ["EngineOptions"; "StorageDriver"];
   Template.NText " --tlsverify --tlscacert ";
   Template.NField ["AuthOptions"; "CaCertRemotePath"];
   Template.NText " --tlscert ";
   Template.NField ["AuthOptions"; "ServerCertRemotePath"];
   Template.NText " --tlskey ";
   Template.NField ["AuthOptions"; "ServerKeyRemotePath"];
   Template.NText " ";
   Template.NRange ["EngineOptions"; "Labels"]
     [Template.NText "--label "; Template.NField []; Template.NText " "];
   Template.NRange ["EngineOptions"; "InsecureRegistry"]
     [Template.NText "--insecure-registry "; Template.NField []; Template.NText " "];
   Template.NRange ["EngineOptions"; "RegistryMirror"]
     [Template.NText "--registry-mirror "; Template.NField []; Template.NText " "];
   Template.NRange ["EngineOptions"; "ArbitraryFlags"]
     [Template.NText "--"; Template.NField []; Template.NText " "];
   Template.NText ("'" ++ nl)].

(** The label [GenerateDockerOptions] derives from the driver. *)
Definition driverNameLabel (p : Provisioner) : string :=
  "provider=" ++ DriverName (ProvDriver p).

(** The provisioner once [GenerateDockerOptions] has appended the label. *)
Definition with_provider_label (p : Provisioner) : Provisioner :=
  set_EngineOptions
    (set_Labels (Labels (ProvEngineOptions p) ++ [driverNameLabel p])%list
       (ProvEngineOptions p)) p.

Definition context_of (dockerPort : Z) (p : Provisioner) : EngineConfigContext :=
  {| CtxDockerPort := dockerPort;
     CtxAuthOptions := ProvAuthOptions p;
     CtxEngineOptions := ProvEngineOptions p |}.

(** The rendered engine-options content of a result, if there is one. *)
Definition rendered (r : option DockerOptions * option error) : option string :=
  option_map EngineOptionsContent (fst r).

(** Two successive calls on the same provisioner, with the same port, render
    the same content. *)
Definition repeat_call_identical (dockerPort : Z) (w : World) : Prop :=
  let (r1, w1) := GenerateDockerOptions dockerPort w in
  let (r2, _) := GenerateDockerOptions dockerPort w1 in
  rendered r1 = rendered r2.

(** The rendered content has as many label tokens as the engine options of
    the call have labels. *)
Definition label_tokens_match_labels (dockerPort : Z) (w : World) : Prop :=
  forall content,
    rendered (fst (GenerateDockerOptions dockerPort w)) = Some content ->
    count_sub "--label " content = List.length (Labels (ProvEngineOptions (prov w))).



(** Worlds used as concrete inputs. *)
Definition opt_world : World :=
  mkWorld
    (mkProvisioner "/opt/docker" "/etc/default/docker" "raspbian" []
       (mkOsRelease "raspbian") (mkDriver "pi1" "generic") zero_SwarmOptions
       zero_AuthOptions zero_EngineOptions) [].

Definition fresh_world : World :=
  mkWorld (NewHypriotProvisioner (mkDriver "pi1" "generic")) [].

Definition configured_provisioner : Provisioner :=
  set_EngineOptions
    (mkEngineOptions "aufs" ["rack=7"] ["reg1:5000"; "reg2:5000"] ["mirror.local"]
       ["debug"; "dns=8.8.8.8"])
    (set_AuthOptions
       (mkAuthOptions "/etc/docker/ca.pem" "/etc/docker/server.pem"
          "/etc/docker/server-key.pem")
       (NewHypriotProvisioner (mkDriver "pi1" "generic"))).

Definition configured_world : World := mkWorld configured_provisioner [].

(** ** Commands of the package manager *)

Definition update_command : string := "sudo -E apt-get update".

Definition action_command (packageAction name : string) : string :=
  "DEBIAN_FRONTEND=noninteractive sudo -E apt-get " ++ packageAction ++ " -y " ++ name.

(** The name [Package] issues its command on. *)
Definition package_alias (name : string) : string :=
  if String.eqb name "docker" then "docker-hypriot" else name.

(** The verb [Package] maps an action to. *)
Definition action_verb (action : PackageAction) : string :=
  match action with
  | Install => "install"
  | Remove => "remove"
  | Upgrade => "install"
  end.

(** [Package name action] issues no metadata refresh. *)
Definition never_refreshes (env : Env) (name : string) (action : PackageAction)
    (w : World) : Prop :=
  exists issued,
    log (snd (Package env name action w)) = (log w ++ issued)%list
    /\ ~ In (EvSSH "sudo -E apt-get update") issued.

(** [Package name action] issues the metadata refresh first: either the
    refresh fails, nothing else is issued and its error is the result, or it
    succeeds and the command of the action on the resolved name follows. *)
Definition refreshes_first (env : Env) (name : string) (action : PackageAction)
    (w : World) : Prop :=
  let update := "sudo -E apt-get update" in
  let command :=
    "DEBIAN_FRONTEND=noninteractive sudo -E apt-get " ++ action_verb action
    ++ " -y " ++ package_alias name in
  (ssh env (log w) update <> None
   /\ log (snd (Package env name action w)) = (log w ++ [EvSSH update])%list
   /\ fst (Package env name action w) = ssh env (log w) update)
  \/ (ssh env (log w) update = None
      /\ log (snd (Package env name action w))
         = (log w ++ [EvSSH update; EvSSH command])%list).

(** ** Observations on a run *)

(** A computation leaves an observation [f] of the world as it was. *)
Definition preserves {A X : Type} (f : World -> X) (m : M A) : Prop :=
  forall w, f (snd (m w)) = f w.

(** The calls of [configureSwarm] in a log, with their arguments. *)
Fixpoint swarm_calls (l : list Event) : list (SwarmOptions * AuthOptions) :=
  match l with
  | [] => []
  | EvCall (CallConfigureSwarm s a) :: rest => (s, a) :: swarm_calls rest
  | _ :: rest => swarm_calls rest
  end.

Definition is_swarm_call (e : Event) : bool :=
  match e with
  | EvCall (CallConfigureSwarm _ _) => true
  | _ => false
  end.

Definition storage_driver_of (w : World) : string :=
  StorageDriver (ProvEngineOptions (prov w)).

(** The rendered content of a call in world [w] carries [sd] as its storage
    driver. *)
Definition renders_storage_driver (dockerPort : Z) (sd : string) (w : World) : Prop :=
  exists rest,
    rendered (fst (GenerateDockerOptions dockerPort w)) =
    Some (nl ++ "DOCKER_OPTS='-H tcp://0.0.0.0:" ++ Template.print_int dockerPort
          ++ " -H unix:///var/run/docker.sock --storage-driver " ++ sd
          ++ " --tlsverify" ++ rest).

(** An environment in which every command and collaborator succeeds, and one
    in which the command that sets up the APT repository fails. *)
Definition remote_paths (p : Provisioner) : AuthOptions :=
  mkAuthOptions (DockerOptionsDir p ++ "/ca.pem") (DockerOptionsDir p ++ "/server.pem")
    (DockerOptionsDir p ++ "/server-key.pem").

Definition env_ok : Env :=
  mkEnv (fun _ _ => None) (fun _ _ p => (p, None)) remote_paths 3 "timeout".

Definition env_apt_repo_fails : Env :=
  mkEnv (fun _ command =>
           if String.prefix "if [ ! -f /etc/apt/sources.list.d/hypriot.list ]" command
           then Some "exit status 1" else None)
        (fun _ _ p => (p, None)) remote_paths 3 "timeout".

(** ** Further observations *)

(** The commands [range_Packages] issues for a package list when nothing
    fails: the metadata refresh and the install command, for each package in
    turn. *)
Definition package_commands (pkgs : list string) : list Event :=
  flat_map (fun pkg =>
              [EvSSH update_command;
               EvSSH (action_command "install" (package_alias pkg))]) pkgs.

(** The commands of a list of events succeed, each one issued after those
    before it, starting from the log [l]. *)
Fixpoint succeed_in_turn (env : Env) (l : list Event) (evs : list Event) : Prop :=
  match evs with
  | [] => True
  | EvSSH command :: rest =>
      ssh env l command = None
      /\ succeed_in_turn env (l ++ [EvSSH command]) rest
  | e :: rest => succeed_in_turn env (l ++ [e]) rest
  end.

(** [n] successive calls of [GenerateDockerOptions] on the same provisioner:
    the world they leave. *)
Fixpoint after_calls (n : nat) (dockerPort : Z) (w : World) : World :=
  match n with
  | O => w
  | S n' => after_calls n' dockerPort (snd (GenerateDockerOptions dockerPort w))
  end.

(** A computation only adds to the log, and what it adds satisfies [P]. *)
Definition emits {A : Type} (P : Event -> Prop) (m : M A) : Prop :=
  forall w, exists evs, log (snd (m w)) = (log w ++ evs)%list /\ Forall P evs.

(** The events [Provision] can add to the log. *)
Inductive Provision_event : Event -> Prop :=
| PE_SetHostname h : Provision_event (EvCall (CallSetHostname h))
| PE_hostname_file h :
    Provision_event
      (EvSSH ("if [ -f /boot/occidentalis.txt ]; then sudo sed -i 's/^hostname.*=.*/hostname="
              ++ h ++ "/g' /boot/occidentalis.txt; fi"))
| PE_update : Provision_event (EvSSH "sudo -E apt-get update")
| PE_install name :
    Provision_event
      (EvSSH ("DEBIAN_FRONTEND=noninteractive sudo -E apt-get install -y " ++ name))
| PE_apt_repo :
    Provision_event
      (EvSSH "if [ ! -f /etc/apt/sources.list.d/hypriot.list ] || grep -q repository.hypriot.com /etc/apt/sources.list.d/hypriot.list; then (curl https://packagecloud.io/gpg.key | sudo apt-key add -); echo 'deb https://packagecloud.io/Hypriot/Schatzkiste/debian/ wheezy main' | sudo tee /etc/apt/sources.list.d/hypriot.list; fi")
| PE_type_docker : Provision_event (EvSSH "type docker")
| PE_status : Provision_event (EvSSH "sudo service docker status")
| PE_start : Provision_event (EvSSH "sudo service docker start")
| PE_version : Provision_event (EvSSH "sudo docker version")
| PE_options_dir : Provision_event (EvCall CallMakeDockerOptionsDir)
| PE_auth : Provision_event (EvCall CallConfigureAuth)
| PE_sleep : Provision_event (EvSleep 2)
| PE_swarm s a : Provision_event (EvCall (CallConfigureSwarm s a)).

(** What a step adds to the log when it returns nil, from world [w]. *)
Definition step_events (env : Env) (swarmOptions : SwarmOptions) (s : Step) (w : World)
    (evs : list Event) : Prop :=
  match s with
  | StepHostname =>
      evs = [EvCall (CallSetHostname (GetMachineName (ProvDriver (prov w))))]
  | StepHostnameFile =>
      evs = [EvSSH ("if [ -f /boot/occidentalis.txt ]; then sudo sed -i 's/^hostname.*=.*/hostname="
                    ++ GetMachineName (ProvDriver (prov w))
                    ++ "/g' /boot/occidentalis.txt; fi")]
  | StepAptTransport =>
      evs = [EvSSH "sudo -E apt-get update";
             EvSSH "DEBIAN_FRONTEND=noninteractive sudo -E apt-get install -y apt-transport-https"]
  | StepAptRepo =>
      evs = [EvSSH "if [ ! -f /etc/apt/sources.list.d/hypriot.list ] || grep -q repository.hypriot.com /etc/apt/sources.list.d/hypriot.list; then (curl https://packagecloud.io/gpg.key | sudo apt-key add -); echo 'deb https://packagecloud.io/Hypriot/Schatzkiste/debian/ wheezy main' | sudo tee /etc/apt/sources.list.d/hypriot.list; fi"]
  | StepDockerInstall => evs = [EvSSH "type docker"]
  | StepPackages => evs = package_commands (Packages (prov w))
  | StepServiceStart =>
      evs = EvSSH "sudo service docker status"
            :: match ssh env (log w) "sudo service docker status" with
               | None => []
               | Some _ => [EvSSH "sudo service docker start"]
               end
  | StepWait =>
      exists polls,
        1 <= polls <= waitAttempts env
        /\ evs = repeat (EvSSH "sudo docker version") polls
        /\ ssh env (log w ++ repeat (EvSSH "sudo docker version") (polls - 1))
             "sudo docker version" = None
        /\ forall k, k < polls - 1 ->
             ssh env (log w ++ repeat (EvSSH "sudo docker version") k)
               "sudo docker version" <> None
  | StepOptionsDir => evs = [EvCall CallMakeDockerOptionsDir]
  | StepAuth => evs = [EvCall CallConfigureAuth]
  | StepSwarm =>
      evs = [EvSleep 2;
             EvCall (CallConfigureSwarm (swarm_image swarmOptions)
                       (ProvAuthOptions (prov w)))]
  end.

(** The worlds a list of steps goes through, each related to the next by
    [R] at the step taken. *)
Fixpoint chain (R : Step -> World -> World -> Prop) (steps : list Step)
    (w w' : World) : Prop :=
  match steps with
  | [] => w' = w
  | s :: rest => exists w1, R s w w1 /\ chain R rest w1 w'
  end.

(** The fields of a provisioner the collaborators are taken to leave alone
    in the account of a run that succeeds: the package list, the driver, the
    options directory and the auth options. *)
Definition kept_fields (p : Provisioner)
    : list string * Driver * string * AuthOptions :=
  (Packages p, ProvDriver p, DockerOptionsDir p, ProvAuthOptions p).

(** What a step that returned nil did: the events it added, and what became
    of the driver, the options directory, the package list and the auth
    options. *)
Definition step_effect (env : Env) (swarmOptions : SwarmOptions) (s : Step)
    (w w1 : World) : Prop :=
  (exists evs, log w1 = (log w ++ evs)%list /\ step_events env swarmOptions s w evs)
  /\ ProvDriver (prov w1) = ProvDriver (prov w)
  /\ DockerOptionsDir (prov w1) = DockerOptionsDir (prov w)
  /\ Packages (prov w1)
     = match s with
       | StepDockerInstall =>
           (Packages (prov w)
            ++ match ssh env (log w) "type docker" with
               | None => []
               | Some _ => ["docker"]
               end)%list
       | _ => Packages (prov w)
       end
  /\ ProvAuthOptions (prov w1)
     = match s with
       | StepAuth => setRemoteAuthOptions env (prov w)
       | _ => ProvAuthOptions (prov w)
       end.

(** An environment in which the two probes of [Provision] fail (docker is
    neither installed nor running) and everything else succeeds. *)
Definition env_probes_fail : Env :=
  mkEnv (fun _ command =>
           if String.eqb command "type docker"
              || String.eqb command "sudo service docker status"
           then Some "exit status 1" else None)
        (fun _ _ p => (p, None)) remote_paths 3 "timeout".

(** * Properties *)

Unset Implicit Arguments.

(** ** Strings *)

Lemma string_app_assoc (a b c : string) : (a ++ b) ++ c = a ++ b ++ c.
Proof.
  induction a as [|x a IH]; simpl; [reflexivity|].
  now rewrite IH.
Qed.

Lemma string_app_nil_r (a : string) : a ++ "" = a.
Proof.
  induction a as [|x a IH]; simpl; [reflexivity|].
  now rewrite IH.
Qed.

Lemma concat_tokens_cons (tok : string -> string) (x : string) (l : list string) :
  concat_tokens tok (x :: l) = tok x ++ concat_tokens tok l.
Proof.
  unfold concat_tokens. simpl.
  destruct (map tok l) eqn:E; simpl.
  - destruct l; [|discriminate]. now rewrite string_app_nil_r.
  - reflexivity.
Qed.

Lemma concat_tokens_app (tok : string -> string) (l1 l2 : list string) :
  concat_tokens tok (l1 ++ l2) = concat_tokens tok l1 ++ concat_tokens tok l2.
Proof.
  induction l1 as [|x l1 IH].
  - reflexivity.
  - simpl app. rewrite !concat_tokens_cons, IH.
    now rewrite string_app_assoc.
Qed.

(** ** The template engine on the engine-config template *)

(** The fixed template parses, to the tree above. *)
Lemma Parse_engineConfigTmpl : Template.Parse engineConfigTmpl = inl engineConfigNodes.
Proof. vm_compute. reflexivity. Qed.

Lemma exec_node_range (path : list string) (body : list Template.node)
    (dot : Template.value) (buf : string) :
  Template.exec_node (Template.NRange path body) dot buf =
  match Template.eval_chain path dot with
  | Some (Template.VSlice elems) => Template.exec_range body elems buf
  | _ => (buf, Some "template: range can't iterate over value")
  end.
Proof.
  simpl. destruct (Template.eval_chain path dot) as [[z|s|elems|fs]|]; try reflexivity.
  revert buf. induction elems as [|e elems IH]; intro buf; [reflexivity|].
  simpl.
  match goal with
  | |- match ?inner body buf with _ => _ end = _ =>
      assert (Hseq : forall ns b, inner ns b = Template.exec_nodes ns e b)
  end.
  { induction ns as [|n ns IHn]; intro b; [reflexivity|].
    simpl. destruct (Template.exec_node n e b) as [b' [err|]]; [reflexivity|].
    apply IHn. }
  rewrite Hseq.
  destruct (Template.exec_nodes body e buf) as [b' [err|]]; [reflexivity|].
  apply IH.
Qed.

(** A [range] whose body is "text, dot, text", over a slice of strings. *)
Lemma exec_range_strings (pre post : string) (l : list string) (buf : string) :
  Template.exec_range
    [Template.NText pre; Template.NField []; Template.NText post]
    (map Template.VString l) buf
  = (buf ++ concat_tokens (fun x => pre ++ x ++ post) l, None).
Proof.
  revert buf. induction l as [|x l IH]; intro buf.
  - simpl. now rewrite string_app_nil_r.
  - simpl map. simpl Template.exec_range. rewrite IH.
    rewrite concat_tokens_cons. now rewrite !string_app_assoc.
Qed.

Lemma exec_nodes_cons_ok (n : Template.node) (ns : list Template.node)
    (dot : Template.value) (buf buf' : string) :
  Template.exec_node n dot buf = (buf', None) ->
  Template.exec_nodes (n :: ns) dot buf = Template.exec_nodes ns dot buf'.
Proof. intro H. simpl. now rewrite H. Qed.

Lemma exec_text (s : string) (dot : Template.value) (buf : string) :
  Template.exec_node (Template.NText s) dot buf = (buf ++ s, None).
Proof. reflexivity. Qed.

Lemma exec_field (path : list string) (dot v : Template.value) (buf : string) :
  Template.eval_chain path dot = Some v ->
  Template.exec_node (Template.NField path) dot buf
  = (buf ++ Template.print_value v, None).
Proof. intro H. simpl. now rewrite H. Qed.

Lemma exec_range_tokens (path : list string) (pre post : string)
    (dot : Template.value) (l : list string) (buf : string) :
  Template.eval_chain path dot = Some (strings_value l) ->
  Template.exec_node
    (Template.NRange path [Template.NText pre; Template.NField []; Template.NText post])
    dot buf
  = (buf ++ concat_tokens (fun x => pre ++ x ++ post) l, None).
Proof.
  intro H. rewrite exec_node_range, H. unfold strings_value.
  apply exec_range_strings.
Qed.

(** Executing the fixed template never fails and writes [render]. *)
Lemma Execute_engineConfigNodes (c : EngineConfigContext) :
  Template.Execute engineConfigNodes (EngineConfigContext_value c) = (render c, None).
Proof.
  unfold Template.Execute, engineConfigNodes.
  repeat
    (erewrite exec_nodes_cons_ok;
     [| first [ apply exec_text
              | apply exec_field; reflexivity
              | apply exec_range_tokens; reflexivity ] ]).
  unfold Template.exec_nodes, render, render_header.
  rewrite !string_app_assoc. reflexivity.
Qed.

(** ** GenerateDockerOptions *)

Lemma GenerateDockerOptions_eq (dockerPort : Z) (w : World) :
  GenerateDockerOptions dockerPort w =
  ((Some {| EngineOptionsContent :=
              render (context_of dockerPort (with_provider_label (prov w)));
            EngineOptionsPath := DaemonOptionsFile (prov w) |}, None),
   mkWorld (with_provider_label (prov w)) (log w)).
Proof.
  unfold GenerateDockerOptions, bind, get_prov, modify_prov, ret.
  cbv beta iota zeta. rewrite Parse_engineConfigTmpl.
  cbn [prov log].
  change (mkEngineConfigContext dockerPort
            (ProvAuthOptions (with_provider_label (prov w)))
            (ProvEngineOptions (with_provider_label (prov w))))
    with (context_of dockerPort (with_provider_label (prov w))).
  now rewrite Execute_engineConfigNodes.
Qed.

Example GenerateDockerOptions_configured :
  rendered (fst (GenerateDockerOptions 2376 configured_world)) =
  Some (nl ++ "DOCKER_OPTS='-H tcp://0.0.0.0:2376 -H unix:///var/run/docker.sock --storage-driver aufs --tlsverify --tlscacert /etc/docker/ca.pem --tlscert /etc/docker/server.pem --tlskey /etc/docker/server-key.pem --label rack=7 --label provider=generic --insecure-registry reg1:5000 --insecure-registry reg2:5000 --registry-mirror mirror.local --debug --dns=8.8.8.8 '" ++ nl).
Proof. vm_compute. reflexivity. Qed.

(** C1, as stated, fails: on a fresh provisioner the second of two successive
    calls with port 2376 renders the provider label twice, the first once. *)
Lemma repeat_call_differs : ~ repeat_call_identical 2376 fresh_world.
Proof.
  unfold repeat_call_identical. intro H.
  apply (f_equal (option_map String.length)) in H.
  vm_compute in H. discriminate H.
Qed.

Example GenerateDockerOptions_twice :
  let (r1, w1) := GenerateDockerOptions 2376 fresh_world in
  let (r2, _) := GenerateDockerOptions 2376 w1 in
  rendered r1 =
    Some (nl ++ "DOCKER_OPTS='-H tcp://0.0.0.0:2376 -H unix:///var/run/docker.sock --storage-driver  --tlsverify --tlscacert  --tlscert  --tlskey  --label provider=generic '" ++ nl)
  /\ rendered r2 =
    Some (nl ++ "DOCKER_OPTS='-H tcp://0.0.0.0:2376 -H unix:///var/run/docker.sock --storage-driver  --tlsverify --tlscacert  --tlscert  --tlskey  --label provider=generic --label provider=generic '" ++ nl).
Proof. vm_compute. split; reflexivity. Qed.

(** C1, amended: the rendered content is a function of the port and of the
    provisioner's driver name, auth options and engine options at the time of
    the call, so calls from provisioners that agree on these render the same
    bytes; and a call appends the provider label to the provisioner's own
    labels, so the next call on it starts from one more label. *)
Theorem GenerateDockerOptions_deterministic_in_state (dockerPort : Z) (w1 w2 : World) :
  DriverName (ProvDriver (prov w1)) = DriverName (ProvDriver (prov w2)) ->
  ProvAuthOptions (prov w1) = ProvAuthOptions (prov w2) ->
  ProvEngineOptions (prov w1) = ProvEngineOptions (prov w2) ->
  rendered (fst (GenerateDockerOptions dockerPort w1))
  = rendered (fst (GenerateDockerOptions dockerPort w2))
  /\ rendered (fst (GenerateDockerOptions dockerPort w1)) <> None
  /\ Labels (ProvEngineOptions (prov (snd (GenerateDockerOptions dockerPort w1))))
     = (Labels (ProvEngineOptions (prov w1))
        ++ [("provider=" ++ DriverName (ProvDriver (prov w1)))%string])%list.
Proof.
  intros Hd Ha He. rewrite !GenerateDockerOptions_eq.
  unfold rendered, context_of, with_provider_label, driverNameLabel. simpl.
  rewrite Hd, Ha, He. repeat split. discriminate.
Qed.

Lemma GenerateDockerOptions_deterministic_in_state_witness :
  let w1 := configured_world in
  let w2 := mkWorld (set_Packages ["curl"] configured_provisioner)
                    [EvSSH "type docker"] in
  DriverName (ProvDriver (prov w1)) = DriverName (ProvDriver (prov w2))
  /\ ProvAuthOptions (prov w1) = ProvAuthOptions (prov w2)
  /\ ProvEngineOptions (prov w1) = ProvEngineOptions (prov w2)
  /\ rendered (fst (GenerateDockerOptions 2376 w1))
     = rendered (fst (GenerateDockerOptions 2376 w2)).
Proof.
  intros w1 w2.
  split; [reflexivity|]. split; [reflexivity|]. split; [reflexivity|].
  apply (GenerateDockerOptions_deterministic_in_state 2376 w1 w2); reflexivity.
Defined.

(** C7, as stated, fails: with no label in the engine options the rendered
    text still holds a label token, the one of the provider label. *)
Lemma label_token_without_label : ~ label_tokens_match_labels 2376 fresh_world.
Proof.
  unfold label_tokens_match_labels. intro H.
  specialize (H _ eq_refl). vm_compute in H. discriminate H.
Qed.

(** C7, amended: the rendered text is the header with the port, the storage
    driver and the three TLS paths, then one label token per label of the
    engine options, in their order, and one more for the provider label, then
    one token per insecure registry, per registry mirror and per arbitrary
    flag, each group in the order of its list. *)
Theorem GenerateDockerOptions_tokens (dockerPort : Z) (w : World) :
  let p := prov w in
  let e := ProvEngineOptions p in
  let a := ProvAuthOptions p in
  rendered (fst (GenerateDockerOptions dockerPort w)) =
  Some (nl ++ "DOCKER_OPTS='-H tcp://0.0.0.0:" ++ Template.print_int dockerPort
        ++ " -H unix:///var/run/docker.sock --storage-driver " ++ StorageDriver e
        ++ " --tlsverify --tlscacert " ++ CaCertRemotePath a
        ++ " --tlscert " ++ ServerCertRemotePath a
        ++ " --tlskey " ++ ServerKeyRemotePath a ++ " "
        ++ concat_tokens (fun l => "--label " ++ l ++ " ")
             (Labels e ++ [("provider=" ++ DriverName (ProvDriver p))%string])%list
        ++ concat_tokens (fun r => "--insecure-registry " ++ r ++ " ")
             (InsecureRegistry e)
        ++ concat_tokens (fun m => "--registry-mirror " ++ m ++ " ")
             (RegistryMirror e)
        ++ concat_tokens (fun f => "--" ++ f ++ " ") (ArbitraryFlags e)
        ++ "'" ++ nl).
Proof.
  intros p e a. rewrite GenerateDockerOptions_eq.
  unfold rendered, render, render_header.
  cbn [fst option_map EngineOptionsContent]. f_equal.
  rewrite !string_app_assoc. reflexivity.
Qed.


(** ** CompatibleWithHost *)

(** C3: the prober answers true exactly when the marker command
    [cat /etc/hypriot_release] succeeds and the ID of the host's OS release
    equals the provisioner's [OsReleaseID], which the constructor sets to
    "raspbian"; it issues that one command, and a failure of the command gives
    the answer false, not an error. *)
Theorem CompatibleWithHost_iff (env : Env) (w : World) :
  (fst (CompatibleWithHost env w) = true <->
   ssh env (log w) "cat /etc/hypriot_release" = None
   /\ ID (OsReleaseInfo (prov w)) = OsReleaseID (prov w))
  /\ snd (CompatibleWithHost env w)
     = mkWorld (prov w) (log w ++ [EvSSH "cat /etc/hypriot_release"])
  /\ (forall d info,
        OsReleaseID (set_OsReleaseInfo info (NewHypriotProvisioner d)) = "raspbian").
Proof.
  unfold CompatibleWithHost, bind, SSHCommand, get_prov, ret. simpl.
  destruct (ssh env (log w) "cat /etc/hypriot_release") as [e|] eqn:E; simpl.
  - repeat split; try discriminate. intros [H _]. discriminate.
  - repeat split.
    + now apply String.eqb_eq.
    + intros [_ H]. now apply String.eqb_eq.
Qed.

Example CompatibleWithHost_raspbian :
  fst (CompatibleWithHost
         (mkEnv (fun _ _ => None) (fun _ _ p => (p, None)) ProvAuthOptions 1 "timeout")
         (mkWorld (set_OsReleaseInfo (mkOsRelease "raspbian")
                     (NewHypriotProvisioner (mkDriver "pi1" "generic"))) []))
  = true.
Proof. reflexivity. Qed.

Example CompatibleWithHost_debian :
  fst (CompatibleWithHost
         (mkEnv (fun _ _ => None) (fun _ _ p => (p, None)) ProvAuthOptions 1 "timeout")
         (mkWorld (set_OsReleaseInfo (mkOsRelease "debian")
                     (NewHypriotProvisioner (mkDriver "pi1" "generic"))) []))
  = false.
Proof. reflexivity. Qed.

Example CompatibleWithHost_no_marker :
  fst (CompatibleWithHost
         (mkEnv (fun _ _ => Some "exit status 1") (fun _ _ p => (p, None))
            ProvAuthOptions 1 "timeout")
         (mkWorld (set_OsReleaseInfo (mkOsRelease "raspbian")
                     (NewHypriotProvisioner (mkDriver "pi1" "generic"))) []))
  = false.
Proof. reflexivity. Qed.

(** ** Package *)

(** [Package] with [Remove]: the one command of the action. *)
Lemma Package_Remove (env : Env) (name : string) (w : World) :
  Package env name Remove w
  = (ssh env (log w) (action_command "remove" (package_alias name)),
     mkWorld (prov w)
       (log w ++ [EvSSH (action_command "remove" (package_alias name))])).
Proof.
  unfold Package, check, bind, SSHCommand, ret, action_command, package_alias.
  simpl.
  destruct (ssh env (log w) _) as [e|]; reflexivity.
Qed.

(** [Package] with an action that refreshes the metadata: the refresh, and
    the command of the action when the refresh went through. *)
Lemma Package_refreshing (env : Env) (name : string) (action : PackageAction)
    (w : World) :
  action <> Remove ->
  Package env name action w
  = match ssh env (log w) update_command with
    | Some e => (Some e, mkWorld (prov w) (log w ++ [EvSSH update_command]))
    | None =>
        (ssh env (log w ++ [EvSSH update_command])
           (action_command "install" (package_alias name)),
         mkWorld (prov w)
           ((log w ++ [EvSSH update_command])
            ++ [EvSSH (action_command "install" (package_alias name))]))
    end.
Proof.
  intro H.
  unfold Package, check, bind, SSHCommand, ret, action_command, package_alias,
    update_command.
  destruct action; try (now elim H); simpl;
    (destruct (ssh env (log w) _) as [e|]; [reflexivity|]; simpl;
     destruct (ssh env _ _) as [e|]; reflexivity).
Qed.

Lemma refreshing_refreshes_first (env : Env) (name : string) (action : PackageAction)
    (w : World) :
  action <> Remove -> refreshes_first env name action w.
Proof.
  intro H. unfold refreshes_first. cbv zeta.
  rewrite (Package_refreshing env name action w H).
  assert (Hv : action_verb action = "install")
    by (destruct action; try reflexivity; now elim H).
  rewrite Hv. unfold update_command, action_command.
  destruct (ssh env (log w) "sudo -E apt-get update") as [e|]; simpl.
  - left. repeat split. discriminate.
  - right. split; [reflexivity|]. now rewrite <- app_assoc.
Qed.

(** C4: for every package name, [Package name Remove] issues no metadata
    refresh, only the command of the removal; [Package name Install] and
    [Package name Upgrade] always issue the refresh [sudo -E apt-get update],
    and as their first command: the command of the action comes after it, and
    only when the refresh succeeded. *)
Theorem Package_metadata_refresh (env : Env) (name : string) (w : World) :
  (never_refreshes env name Remove w
   /\ log (snd (Package env name Remove w))
      = (log w ++ [EvSSH ("DEBIAN_FRONTEND=noninteractive sudo -E apt-get remove -y "
                          ++ package_alias name)])%list)
  /\ refreshes_first env name Install w
  /\ refreshes_first env name Upgrade w.
Proof.
  split; [|split; apply refreshing_refreshes_first; discriminate].
  unfold never_refreshes. rewrite Package_Remove. simpl.
  split; [|reflexivity].
  eexists. split; [reflexivity|].
  simpl. intros [H|[]]. discriminate H.
Qed.

(** C5: for every action, the commands [Package "docker" action] issues are
    the metadata refresh and the command of the action on [docker-hypriot];
    no command of an action on the name [docker] is issued; and the command
    on [docker-hypriot] is issued unless the refresh failed before it. *)
Theorem Package_docker_alias (env : Env) (action : PackageAction) (w : World) :
  exists issued,
    log (snd (Package env "docker" action w)) = (log w ++ issued)%list
    /\ (forall command, In (EvSSH command) issued ->
          command = "sudo -E apt-get update"
          \/ command = "DEBIAN_FRONTEND=noninteractive sudo -E apt-get "
                       ++ action_verb action ++ " -y docker-hypriot")
    /\ (forall a, ~ In (EvSSH ("DEBIAN_FRONTEND=noninteractive sudo -E apt-get "
                               ++ action_verb a ++ " -y docker")) issued)
    /\ (In (EvSSH ("DEBIAN_FRONTEND=noninteractive sudo -E apt-get "
                   ++ action_verb action ++ " -y docker-hypriot")) issued
        \/ (action <> Remove
            /\ ssh env (log w) "sudo -E apt-get update" <> None
            /\ fst (Package env "docker" action w)
               = ssh env (log w) "sudo -E apt-get update")).
Proof.
  assert (Hissued : forall issued : list Event,
    (forall e, In e issued ->
       e = EvSSH "sudo -E apt-get update"
       \/ e = EvSSH ("DEBIAN_FRONTEND=noninteractive sudo -E apt-get "
                     ++ action_verb action ++ " -y docker-hypriot")) ->
    (forall command, In (EvSSH command) issued ->
       command = "sudo -E apt-get update"
       \/ command = "DEBIAN_FRONTEND=noninteractive sudo -E apt-get "
                    ++ action_verb action ++ " -y docker-hypriot")
    /\ (forall a, ~ In (EvSSH ("DEBIAN_FRONTEND=noninteractive sudo -E apt-get "
                               ++ action_verb a ++ " -y docker")) issued)).
  { intros issued Hall. split.
    - intros command Hin. destruct (Hall _ Hin) as [H|H]; inversion H; auto.
    - intros a Hin. destruct (Hall _ Hin) as [H|H].
      + discriminate H.
      + destruct a, action; discriminate H. }
  destruct action.
  2:{ rewrite Package_Remove. simpl. eexists. split; [reflexivity|].
      apply and_assoc. split.
      - apply Hissued. intros e [H|[]]. right. now symmetry.
      - left. now left. }
  all: rewrite Package_refreshing by discriminate;
    unfold update_command, action_command, package_alias; simpl;
    destruct (ssh env (log w) "sudo -E apt-get update") as [e|] eqn:E; simpl.
  all: eexists; (split; [try rewrite <- app_assoc; reflexivity|]).
  all: apply and_assoc; split;
    [ apply Hissued; simpl; intros e' He';
      repeat (destruct He' as [He'|He']; [now auto|]); contradiction |].
  all: try (right; repeat split; discriminate).
  all: left; simpl; auto.
Qed.

(** C10: for every package name, [Package name Upgrade] is
    [Package name Install]: the same commands, in the same order, with the
    same result, namely the metadata refresh and then [apt-get install]. *)
Theorem Package_Upgrade_is_Install (env : Env) (name : string) (w : World) :
  Package env name Upgrade w = Package env name Install w
  /\ refreshes_first env name Upgrade w
  /\ action_verb Upgrade = "install".
Proof.
  split; [reflexivity|].
  split; [apply refreshing_refreshes_first; discriminate | reflexivity].
Qed.

(** ** Provision as a run of the pipeline *)

Lemma Provision_run_checked (env : Env) (sw : SwarmOptions) (au : AuthOptions)
    (en : EngineOptions) (w : World) :
  Provision env sw au en w
  = run_checked env sw pipeline (snd (Provision_begin sw au en w)).
Proof.
  unfold Provision, Provision_begin, pipeline.
  cbn [run_checked step_action].
  unfold swarm_image, check, bind, ret, get_prov, modify_prov.
  repeat (cbn beta iota delta [snd fst];
          match goal with
          | |- context [let (_, _) := ?x in _] => destruct x
          | |- context [match ?x with Some _ => _ | None => _ end] => destruct x
          | |- context [if ?x then _ else _] => destruct x
          end); reflexivity.
Qed.

Lemma run_checked_cons (env : Env) (sw : SwarmOptions) (s : Step) (rest : list Step)
    (w : World) :
  run_checked env sw (s :: rest) w
  = match step_action env sw s w with
    | (Some e, w1) => (Some e, w1)
    | (None, w1) => run_checked env sw rest w1
    end.
Proof.
  simpl. unfold check, bind, ret.
  destruct (step_action env sw s w) as [[e|] w1]; reflexivity.
Qed.

Lemma run_checked_app (env : Env) (sw : SwarmOptions) (l1 l2 : list Step) (w : World) :
  run_checked env sw (l1 ++ l2) w
  = match run_checked env sw l1 w with
    | (Some e, w1) => (Some e, w1)
    | (None, w1) => run_checked env sw l2 w1
    end.
Proof.
  revert w. induction l1 as [|s l1 IH]; intro w.
  - reflexivity.
  - simpl app. rewrite !run_checked_cons.
    destruct (step_action env sw s w) as [[e|] w1]; [reflexivity|]. apply IH.
Qed.

(** A checked run is the run of a prefix of the steps: the steps before the
    last of the prefix succeed, and the run stops after the last, which is
    the first to fail or the end of the list. *)
Lemma run_checked_prefix (env : Env) (sw : SwarmOptions) (steps : list Step) (w : World) :
  exists k,
    k <= List.length steps
    /\ snd (run_checked env sw steps w) = snd (exec_all env sw (firstn k steps) w)
    /\ ((k = List.length steps
         /\ fst (exec_all env sw (firstn k steps) w) = repeat None k
         /\ fst (run_checked env sw steps w) = None)
        \/ (exists e,
              1 <= k
              /\ fst (exec_all env sw (firstn k steps) w)
                 = (repeat None (k - 1) ++ [Some e])%list
              /\ fst (run_checked env sw steps w) = Some e)).
Proof.
  revert w. induction steps as [|s steps IH]; intro w.
  - exists 0. simpl. repeat split; auto.
  - rewrite run_checked_cons.
    destruct (step_action env sw s w) as [[e|] w1] eqn:E.
    + exists 1. simpl. rewrite E. repeat split; [lia|].
      right. exists e. repeat split; auto.
    + destruct (IH w1) as (k & Hk & Hw & Hr).
      exists (S k). simpl. rewrite E.
      destruct (exec_all env sw (firstn k steps) w1) as [rs w2] eqn:E2.
      simpl in *. split; [lia|]. split; [assumption|].
      destruct Hr as [(Hk' & Ho & Hn)|(e & Hk' & Ho & Hn)].
      * left. subst rs. repeat split; auto.
      * right. exists e. split; [lia|]. split; [|assumption].
        rewrite Ho, Nat.sub_0_r.
        destruct k as [|k]; [lia|]. simpl. now rewrite Nat.sub_0_r.
Qed.


(** With every command and collaborator succeeding, the whole pipeline runs:
    docker is found installed and running, so nothing is installed. *)
Example Provision_all_succeed :
  let w := mkWorld (NewHypriotProvisioner (mkDriver "pi1" "generic")) [] in
  let (res, w') := Provision env_ok (mkSwarmOptions "swarm:latest" ["master"])
                     zero_AuthOptions zero_EngineOptions w in
  res = None
  /\ log w' =
     [EvCall (CallSetHostname "pi1");
      EvSSH "if [ -f /boot/occidentalis.txt ]; then sudo sed -i 's/^hostname.*=.*/hostname=pi1/g' /boot/occidentalis.txt; fi";
      EvSSH "sudo -E apt-get update";
      EvSSH "DEBIAN_FRONTEND=noninteractive sudo -E apt-get install -y apt-transport-https";
      EvSSH "if [ ! -f /etc/apt/sources.list.d/hypriot.list ] || grep -q repository.hypriot.com /etc/apt/sources.list.d/hypriot.list; then (curl https://packagecloud.io/gpg.key | sudo apt-key add -); echo 'deb https://packagecloud.io/Hypriot/Schatzkiste/debian/ wheezy main' | sudo tee /etc/apt/sources.list.d/hypriot.list; fi";
      EvSSH "type docker";
      EvSSH "sudo service docker status";
      EvSSH "sudo docker version";
      EvCall CallMakeDockerOptionsDir;
      EvCall CallConfigureAuth;
      EvSleep 2;
      EvCall (CallConfigureSwarm
                (mkSwarmOptions "hypriot/rpi-swarm:latest" ["master"])
                (mkAuthOptions "/etc/docker/ca.pem" "/etc/docker/server.pem"
                   "/etc/docker/server-key.pem"))].
Proof. vm_compute. split; reflexivity. Qed.

(** With the APT repository command failing, the run stops there. *)
Example Provision_apt_repo_fails :
  let w := mkWorld (NewHypriotProvisioner (mkDriver "pi1" "generic")) [] in
  let (res, w') := Provision env_apt_repo_fails (mkSwarmOptions "swarm:latest" [])
                     zero_AuthOptions zero_EngineOptions w in
  res = Some "exit status 1"
  /\ log w' =
     [EvCall (CallSetHostname "pi1");
      EvSSH "if [ -f /boot/occidentalis.txt ]; then sudo sed -i 's/^hostname.*=.*/hostname=pi1/g' /boot/occidentalis.txt; fi";
      EvSSH "sudo -E apt-get update";
      EvSSH "DEBIAN_FRONTEND=noninteractive sudo -E apt-get install -y apt-transport-https";
      EvSSH "if [ ! -f /etc/apt/sources.list.d/hypriot.list ] || grep -q repository.hypriot.com /etc/apt/sources.list.d/hypriot.list; then (curl https://packagecloud.io/gpg.key | sudo apt-key add -); echo 'deb https://packagecloud.io/Hypriot/Schatzkiste/debian/ wheezy main' | sudo tee /etc/apt/sources.list.d/hypriot.list; fi"].
Proof. vm_compute. split; reflexivity. Qed.

(** ** What the steps leave unchanged *)

Lemma preserves_ret {A X : Type} (f : World -> X) (a : A) : preserves f (ret a).
Proof. intro w. reflexivity. Qed.

Lemma preserves_bind {A B X : Type} (f : World -> X) (m : M A) (k : A -> M B) :
  preserves f m -> (forall a, preserves f (k a)) -> preserves f (bind m k).
Proof.
  intros Hm Hk w. unfold bind.
  specialize (Hm w). destruct (m w) as [a w1]. simpl in Hm.
  now rewrite Hk.
Qed.

Lemma preserves_check {X : Type} (f : World -> X) (m k : M (option error)) :
  preserves f m -> preserves f k -> preserves f (check m k).
Proof.
  intros Hm Hk. unfold check. apply preserves_bind; [assumption|].
  intros [e|]; [apply preserves_ret | assumption].
Qed.

Lemma preserves_get_prov {X : Type} (f : World -> X) : preserves f get_prov.
Proof. intro w. reflexivity. Qed.

Section Frame.

Variable env : Env.
Variable X : Type.
Variable f : World -> X.

(** [f] does not see the events other than the calls of [configureSwarm],
    nor the package list or the auth options of the provisioner, nor what the
    collaborators do to the provisioner. *)
Hypothesis f_event : forall p l e,
  is_swarm_call e = false -> f (mkWorld p (l ++ [e])) = f (mkWorld p l).
Hypothesis f_Packages : forall p l pkgs,
  f (mkWorld (set_Packages pkgs p) l) = f (mkWorld p l).
Hypothesis f_AuthOptions : forall p l a,
  f (mkWorld (set_AuthOptions a p) l) = f (mkWorld p l).
Hypothesis f_collab : forall p l l' c,
  f (mkWorld (fst (collab env l' c p)) l) = f (mkWorld p l).

Lemma f_eta (w : World) : f (mkWorld (prov w) (log w)) = f w.
Proof. now destruct w. Qed.

Lemma preserves_SSHCommand (command : string) : preserves f (SSHCommand env command).
Proof.
  intro w. unfold SSHCommand. simpl. rewrite f_event by reflexivity. apply f_eta.
Qed.

Lemma preserves_call (c : Call) :
  is_swarm_call (EvCall c) = false -> preserves f (call env c).
Proof.
  intros Hc w. unfold call.
  pose proof (f_collab (prov w) (log w) (log w) c) as H.
  destruct (collab env (log w) c (prov w)) as [p' r]. simpl in *.
  rewrite f_event by assumption. rewrite H. apply f_eta.
Qed.

Lemma preserves_Package (name : string) (action : PackageAction) :
  preserves f (Package env name action).
Proof.
  unfold Package. destruct action; cbv zeta beta iota;
    repeat first [ apply preserves_check | apply preserves_SSHCommand
                 | apply preserves_ret ].
Qed.

Lemma preserves_Service (name : string) (action : ServiceAction) :
  preserves f (Service env name action).
Proof.
  unfold Service. cbv zeta.
  repeat first [ apply preserves_check | apply preserves_SSHCommand
               | apply preserves_ret ].
Qed.

Lemma preserves_probe (command : string) (yes no : M bool) :
  preserves f yes -> preserves f no ->
  preserves f (bind (SSHCommand env command)
                 (fun err => match err with Some _ => no | None => yes end)).
Proof.
  intros Hy Hn. apply preserves_bind; [apply preserves_SSHCommand|].
  intros [e|]; assumption.
Qed.

Lemma preserves_dockerDaemonResponding : preserves f (dockerDaemonResponding env).
Proof. apply preserves_probe; apply preserves_ret. Qed.

Lemma preserves_dockerDaemonInstalled : preserves f (dockerDaemonInstalled env).
Proof. apply preserves_probe; apply preserves_ret. Qed.

Lemma preserves_dockerDaemonRunning : preserves f (dockerDaemonRunning env).
Proof. apply preserves_probe; apply preserves_ret. Qed.

Lemma preserves_range_Packages (pkgs : list string) :
  preserves f (range_Packages env pkgs).
Proof.
  induction pkgs as [|pkg pkgs IH]; simpl.
  - apply preserves_ret.
  - apply preserves_check; [apply preserves_Package | exact IH].
Qed.

Lemma preserves_WaitFor (probe : M bool) :
  preserves f probe -> preserves f (WaitFor env probe).
Proof.
  intro Hp. unfold WaitFor.
  induction (waitAttempts env) as [|n IH]; simpl.
  - apply preserves_ret.
  - apply preserves_bind; [exact Hp|].
    intros [|]; [apply preserves_ret | exact IH].
Qed.

Lemma preserves_modify_Packages (g : Provisioner -> list string) :
  preserves f (modify_prov (fun p => set_Packages (g p) p)).
Proof. intro w. unfold modify_prov. simpl. rewrite f_Packages. apply f_eta. Qed.

Lemma preserves_modify_AuthOptions (a : AuthOptions) :
  preserves f (modify_prov (set_AuthOptions a)).
Proof. intro w. unfold modify_prov. simpl. rewrite f_AuthOptions. apply f_eta. Qed.

(** Every step but the last preserves [f]. *)
Lemma preserves_step (sw : SwarmOptions) (s : Step) :
  s <> StepSwarm -> preserves f (step_action env sw s).
Proof.
  intro Hs. destruct s; try (now elim Hs); simpl.
  - apply preserves_bind; [apply preserves_get_prov|]. intro p.
    now apply preserves_call.
  - apply preserves_bind; [apply preserves_get_prov|]. intro p.
    unfold setHostnameHypriot.
    repeat first [ apply preserves_check | apply preserves_SSHCommand
                 | apply preserves_ret ].
  - apply preserves_Package.
  - unfold setHypriotAptRepo.
    repeat first [ apply preserves_check | apply preserves_SSHCommand
                 | apply preserves_ret ].
  - apply preserves_bind; [apply preserves_dockerDaemonInstalled|].
    intro installed. apply preserves_bind; [|intro; apply preserves_ret].
    destruct installed; simpl;
      [apply preserves_ret | apply preserves_modify_Packages].
  - apply preserves_bind; [apply preserves_get_prov|]. intro p.
    apply preserves_range_Packages.
  - apply preserves_bind; [apply preserves_dockerDaemonRunning|].
    intro running. destruct running; simpl;
      [apply preserves_ret | apply preserves_Service].
  - apply preserves_WaitFor, preserves_dockerDaemonResponding.
  - now apply preserves_call.
  - apply preserves_bind.
    + apply preserves_bind; [apply preserves_get_prov|]. intro p.
      apply preserves_modify_AuthOptions.
    + intros _. now apply preserves_call.
Qed.

Lemma preserves_run_checked (sw : SwarmOptions) (steps : list Step) :
  (forall s, In s steps -> preserves f (step_action env sw s)) ->
  preserves f (run_checked env sw steps).
Proof.
  induction steps as [|s steps IH]; intro H; simpl.
  - apply preserves_ret.
  - apply preserves_check; [apply H; now left|].
    apply IH. intros s' Hs'. apply H. now right.
Qed.

Lemma preserves_exec_all (sw : SwarmOptions) (steps : list Step) (w : World) :
  (forall s, In s steps -> preserves f (step_action env sw s)) ->
  f (snd (exec_all env sw steps w)) = f w.
Proof.
  revert w. induction steps as [|s steps IH]; intros w H; simpl.
  - reflexivity.
  - pose proof (H s (or_introl eq_refl) w) as Hs.
    destruct (step_action env sw s w) as [r w1]. simpl in Hs.
    specialize (IH w1 (fun s' Hs' => H s' (or_intror Hs'))).
    destruct (exec_all env sw steps w1) as [rs w2]. simpl in *.
    congruence.
Qed.

End Frame.

(** ** The storage driver *)

Lemma Provision_begin_storage_driver (sw : SwarmOptions) (au : AuthOptions)
    (en : EngineOptions) (w : World) :
  storage_driver_of (snd (Provision_begin sw au en w))
  = if String.eqb (StorageDriver en) "" then "overlay" else StorageDriver en.
Proof.
  unfold Provision_begin, bind, modify_prov, get_prov, ret, storage_driver_of.
  simpl. destruct (String.eqb (StorageDriver en) ""); reflexivity.
Qed.

Lemma step_preserves_storage_driver (env : Env) (sw : SwarmOptions) (s : Step) :
  (forall l c p, StorageDriver (ProvEngineOptions (fst (collab env l c p)))
                 = StorageDriver (ProvEngineOptions p)) ->
  preserves storage_driver_of (step_action env sw s).
Proof.
  intro Hc. destruct s.
  11:{ intro w. unfold storage_driver_of. simpl.
       unfold bind, Sleep, emit, get_prov, configureSwarm, call. simpl.
       specialize (Hc (log w ++ [EvSleep 2])%list
                      (CallConfigureSwarm (swarm_image sw) (ProvAuthOptions (prov w)))
                      (prov w)).
       destruct (collab env _ _ (prov w)) as [p' r]. exact Hc. }
  all: apply preserves_step; try discriminate; try reflexivity.
  all: intros; unfold storage_driver_of; simpl; apply Hc.
Qed.

Lemma storage_driver_rendered (dockerPort : Z) (w : World) :
  renders_storage_driver dockerPort (storage_driver_of w) w.
Proof.
  unfold renders_storage_driver, storage_driver_of.
  rewrite GenerateDockerOptions_eq.
  unfold rendered, render, render_header.
  cbn [fst option_map EngineOptionsContent].
  eexists. f_equal. rewrite !string_app_assoc. reflexivity.
Qed.

(** C6: [Provision] stores the engine options with the storage driver
    "overlay" when the caller left it empty, and with the caller's value
    otherwise; unless a collaborator changes it, the stored value is the one
    [GenerateDockerOptions] renders after [--storage-driver], whether it is
    called between two steps of the pipeline or after [Provision] returned. *)
Theorem Provision_storage_driver (env : Env) (sw : SwarmOptions) (au : AuthOptions)
    (en : EngineOptions) (w : World) (dockerPort : Z) :
  (forall l c p, StorageDriver (ProvEngineOptions (fst (collab env l c p)))
                 = StorageDriver (ProvEngineOptions p)) ->
  let sd := if String.eqb (StorageDriver en) "" then "overlay" else StorageDriver en in
  (forall k,
     renders_storage_driver dockerPort sd
       (snd (exec_all env sw (firstn k pipeline) (snd (Provision_begin sw au en w)))))
  /\ renders_storage_driver dockerPort sd (snd (Provision env sw au en w)).
Proof.
  intros Hc sd.
  assert (Hk : forall k,
    storage_driver_of
      (snd (exec_all env sw (firstn k pipeline) (snd (Provision_begin sw au en w))))
    = sd).
  { intro k. rewrite preserves_exec_all.
    - apply Provision_begin_storage_driver.
    - intros s _. now apply step_preserves_storage_driver. }
  split.
  - intro k. rewrite <- (Hk k). apply storage_driver_rendered.
  - destruct (run_checked_prefix env sw pipeline (snd (Provision_begin sw au en w)))
      as (k & _ & Hw & _).
    rewrite Provision_run_checked, Hw, <- (Hk k). apply storage_driver_rendered.
Qed.

Lemma Provision_storage_driver_witness :
  (forall l c p,
     StorageDriver (ProvEngineOptions (fst (collab env_ok l c p)))
     = StorageDriver (ProvEngineOptions p))
  /\ renders_storage_driver 2376 "overlay"
       (snd (Provision env_ok (mkSwarmOptions "swarm:latest" [])
               zero_AuthOptions zero_EngineOptions fresh_world))
  /\ renders_storage_driver 2376 "aufs"
       (snd (Provision env_ok (mkSwarmOptions "swarm:latest" [])
               zero_AuthOptions (mkEngineOptions "aufs" [] [] [] []) fresh_world)).
Proof.
  split; [reflexivity|]. split.
  - apply (Provision_storage_driver env_ok (mkSwarmOptions "swarm:latest" [])
             zero_AuthOptions zero_EngineOptions fresh_world 2376).
    reflexivity.
  - apply (Provision_storage_driver env_ok (mkSwarmOptions "swarm:latest" [])
             zero_AuthOptions (mkEngineOptions "aufs" [] [] [] []) fresh_world 2376).
    reflexivity.
Defined.

(** ** What the steps do to the provisioner's fields *)

Section FieldFrame.

Variable env : Env.
Variable X : Type.
Variable g : Provisioner -> X.

(** The collaborators leave the observed part of the provisioner alone. *)
Hypothesis g_collab : forall l c p, g (fst (collab env l c p)) = g p.

Let on_prov : World -> X := fun w => g (prov w).

Lemma on_prov_event (p : Provisioner) (l : list Event) (e : Event) :
  is_swarm_call e = false ->
  on_prov (mkWorld p (l ++ [e])) = on_prov (mkWorld p l).
Proof. reflexivity. Qed.

Lemma field_call (c : Call) : preserves on_prov (call env c).
Proof.
  intro w. unfold call, on_prov.
  pose proof (g_collab (log w) c (prov w)) as H.
  destruct (collab env (log w) c (prov w)) as [p' r]. exact H.
Qed.

Lemma field_emit (e : Event) : preserves on_prov (emit e).
Proof. intro w. reflexivity. Qed.

(** A step preserves the observation, provided the observation does not look
    at what the step itself assigns: the package list in the docker probe
    step, the auth options in the auth step. *)
Lemma step_preserves_field (sw : SwarmOptions) (s : Step) :
  (s = StepDockerInstall -> forall p pkgs, g (set_Packages pkgs p) = g p) ->
  (s = StepAuth -> forall p a, g (set_AuthOptions a p) = g p) ->
  preserves on_prov (step_action env sw s).
Proof.
  intros Hpk Hau. destruct s; simpl.
  - apply preserves_bind; [apply preserves_get_prov|]. intro p. apply field_call.
  - apply preserves_bind; [apply preserves_get_prov|]. intro p.
    unfold setHostnameHypriot.
    apply preserves_check; [|apply preserves_ret].
    apply preserves_SSHCommand, on_prov_event.
  - apply preserves_Package, on_prov_event.
  - unfold setHypriotAptRepo.
    apply preserves_check; [|apply preserves_ret].
    apply preserves_SSHCommand, on_prov_event.
  - apply preserves_bind; [apply preserves_dockerDaemonInstalled, on_prov_event|].
    intro installed. apply preserves_bind; [|intro; apply preserves_ret].
    destruct installed; simpl; [apply preserves_ret|].
    intro w. unfold modify_prov, on_prov. simpl. now apply Hpk.
  - apply preserves_bind; [apply preserves_get_prov|]. intro p.
    apply preserves_range_Packages, on_prov_event.
  - apply preserves_bind; [apply preserves_dockerDaemonRunning, on_prov_event|].
    intro running. destruct running; simpl;
      [apply preserves_ret | apply preserves_Service, on_prov_event].
  - apply preserves_WaitFor, preserves_dockerDaemonResponding, on_prov_event.
  - apply field_call.
  - apply preserves_bind; [|intros _; apply field_call].
    apply preserves_bind; [apply preserves_get_prov|]. intro p.
    intro w. unfold modify_prov, on_prov. simpl. now apply Hau.
  - apply preserves_bind; [apply field_emit|]. intros _.
    apply preserves_bind; [apply preserves_get_prov|]. intro p. apply field_call.
Qed.

(** [Provision] as a whole, for an observation that looks neither at the
    package list nor at the auth options. *)
Lemma Provision_preserves_field (sw : SwarmOptions) (au : AuthOptions)
    (en : EngineOptions) (w : World) :
  (forall p pkgs, g (set_Packages pkgs p) = g p) ->
  (forall p a, g (set_AuthOptions a p) = g p) ->
  g (prov (snd (Provision env sw au en w)))
  = g (prov (snd (Provision_begin sw au en w))).
Proof.
  intros Hpk Hau. rewrite Provision_run_checked.
  apply (@preserves_run_checked env X on_prov sw pipeline).
  intros s _. apply step_preserves_field; auto.
Qed.

End FieldFrame.

(** ** The call of configureSwarm *)

Lemma swarm_calls_app (l1 l2 : list Event) :
  swarm_calls (l1 ++ l2) = (swarm_calls l1 ++ swarm_calls l2)%list.
Proof.
  induction l1 as [|e l1 IH]; [reflexivity|].
  destruct e as [c|[h| | |s a]|n]; simpl; now rewrite IH.
Qed.

Lemma swarm_calls_other (l : list Event) (e : Event) :
  is_swarm_call e = false -> swarm_calls (l ++ [e]) = swarm_calls l.
Proof.
  intro H. rewrite swarm_calls_app.
  destruct e as [c|[h| | |s a]|n]; try discriminate H; simpl; apply app_nil_r.
Qed.

Lemma step_preserves_swarm_calls (env : Env) (sw : SwarmOptions) (s : Step) :
  s <> StepSwarm -> preserves (fun w => swarm_calls (log w)) (step_action env sw s).
Proof.
  intro Hs. apply preserves_step; try assumption; try reflexivity.
  intros p l e He. simpl. now apply swarm_calls_other.
Qed.

(** The auth step leaves the auth options at what [setRemoteAuthOptions]
    computed, when the collaborator does not touch them. *)
Lemma StepAuth_AuthOptions (env : Env) (sw : SwarmOptions) (w : World) :
  (forall l p, ProvAuthOptions (fst (collab env l CallConfigureAuth p))
               = ProvAuthOptions p) ->
  ProvAuthOptions (prov (snd (step_action env sw StepAuth w)))
  = setRemoteAuthOptions env (prov w).
Proof.
  intro Hc. simpl. unfold bind, get_prov, modify_prov, ConfigureAuth, call. simpl.
  specialize (Hc (log w) (set_AuthOptions (setRemoteAuthOptions env (prov w)) (prov w))).
  destruct (collab env (log w) CallConfigureAuth _) as [p' r]. exact Hc.
Qed.

(** The swarm step: the pause, then the one call. *)
Lemma StepSwarm_log (env : Env) (sw : SwarmOptions) (w : World) :
  log (snd (step_action env sw StepSwarm w))
  = (log w ++ [EvSleep 2;
               EvCall (CallConfigureSwarm (swarm_image sw) (ProvAuthOptions (prov w)))])%list.
Proof.
  simpl. unfold bind, Sleep, emit, get_prov, configureSwarm, call. simpl.
  destruct (collab env _ _ (prov w)) as [p' r]. simpl.
  now rewrite <- app_assoc.
Qed.

(** C8: [Provision] calls [configureSwarm] at most once, as the last thing
    it does, and always when it returns nil.  The swarm options of the call
    are the caller's, with the image "hypriot/rpi-swarm:latest" in place of
    "swarm:latest" and any other image as it is.  The auth options of the
    call are those [setRemoteAuthOptions] computed from the provisioner as it
    stood when the auth step began, that is after the nine steps before it,
    when the auth collaborator leaves the provisioner's auth options alone.
    When moreover [setRemoteAuthOptions] reads only the options directory and
    the auth options of the provisioner, and the collaborators leave these
    two alone, they are the ones computed from the provisioner with the
    caller's auth options, and after a nil result they are the ones the
    provisioner holds. *)
Theorem Provision_configureSwarm (env : Env) (sw : SwarmOptions) (au : AuthOptions)
    (en : EngineOptions) (w : World) :
  (forall l p, ProvAuthOptions (fst (collab env l CallConfigureAuth p))
               = ProvAuthOptions p) ->
  let image :=
    if String.eqb (Image sw) "swarm:latest"
    then "hypriot/rpi-swarm:latest" else Image sw in
  let res := fst (Provision env sw au en w) in
  let w' := snd (Provision env sw au en w) in
  let before_auth :=
    snd (run_checked env sw
           [StepHostname; StepHostnameFile; StepAptTransport; StepAptRepo;
            StepDockerInstall; StepPackages; StepServiceStart; StepWait;
            StepOptionsDir]
           (snd (Provision_begin sw au en w))) in
  let auth := setRemoteAuthOptions env (prov before_auth) in
  ((swarm_calls (log w') = swarm_calls (log w) /\ res <> None)
   \/ ((exists l,
          log w' = (l ++ [EvSleep 2;
                          EvCall (CallConfigureSwarm
                                    (mkSwarmOptions image (Membership sw)) auth)])%list)
       /\ swarm_calls (log w')
          = (swarm_calls (log w)
             ++ [(mkSwarmOptions image (Membership sw), auth)])%list))
  /\ ((forall p q, DockerOptionsDir p = DockerOptionsDir q ->
                   ProvAuthOptions p = ProvAuthOptions q ->
                   setRemoteAuthOptions env p = setRemoteAuthOptions env q) ->
      (forall l c p,
         (DockerOptionsDir (fst (collab env l c p)),
          ProvAuthOptions (fst (collab env l c p)))
         = (DockerOptionsDir p, ProvAuthOptions p)) ->
      auth = setRemoteAuthOptions env (set_AuthOptions au (prov w))
      /\ (res = None -> ProvAuthOptions (prov w') = auth)).
Proof.
  intros Hc image res w' before_auth auth. subst res w' auth before_auth.
  assert (Himg : swarm_image sw = mkSwarmOptions image (Membership sw)).
  { unfold swarm_image, image, set_Image.
    destruct (String.eqb (Image sw) "swarm:latest"); [reflexivity|].
    now destruct sw. }
  rewrite Provision_run_checked.
  assert (Hw0 : swarm_calls (log (snd (Provision_begin sw au en w)))
                = swarm_calls (log w)
                /\ DockerOptionsDir (prov (snd (Provision_begin sw au en w)))
                   = DockerOptionsDir (prov w)
                /\ ProvAuthOptions (prov (snd (Provision_begin sw au en w))) = au).
  { unfold Provision_begin, bind, modify_prov, get_prov, ret. simpl.
    destruct (String.eqb (StorageDriver en) ""); auto. }
  destruct Hw0 as (Hw0 & Hd0 & Ha0).
  set (w0 := snd (Provision_begin sw au en w)) in *. clearbody w0.
  change pipeline with
    ([StepHostname; StepHostnameFile; StepAptTransport; StepAptRepo;
      StepDockerInstall; StepPackages; StepServiceStart; StepWait;
      StepOptionsDir] ++ [StepAuth; StepSwarm])%list.
  rewrite run_checked_app.
  set (pre := [StepHostname; StepHostnameFile; StepAptTransport; StepAptRepo;
               StepDockerInstall; StepPackages; StepServiceStart; StepWait;
               StepOptionsDir]).
  assert (Hnine : forall s, In s pre -> s <> StepAuth /\ s <> StepSwarm).
  { intros s Hin; split; intro; subst s; simpl in Hin; intuition discriminate. }
  pose proof (@preserves_run_checked env _ (fun w => swarm_calls (log w)) sw pre
                (fun s Hin => step_preserves_swarm_calls env sw s
                                (proj2 (Hnine s Hin))) w0) as Hpre.
  assert (Hframe : forall Hcc : (forall l c p,
              (DockerOptionsDir (fst (collab env l c p)),
               ProvAuthOptions (fst (collab env l c p)))
              = (DockerOptionsDir p, ProvAuthOptions p)),
            DockerOptionsDir (prov (snd (run_checked env sw pre w0)))
            = DockerOptionsDir (prov w)
            /\ ProvAuthOptions (prov (snd (run_checked env sw pre w0))) = au).
  { intro Hcc.
    pose proof (@preserves_run_checked env _
                  (fun w => (DockerOptionsDir (prov w), ProvAuthOptions (prov w)))
                  sw pre
                  (fun s Hin =>
                     step_preserves_field env _
                       (fun p => (DockerOptionsDir p, ProvAuthOptions p)) Hcc sw s
                       (fun _ _ _ => eq_refl)
                       (fun E => False_ind _ (proj1 (Hnine s Hin) E))) w0) as Hf.
    cbv beta in Hf. rewrite Hd0, Ha0 in Hf.
    split; [exact (f_equal fst Hf) | exact (f_equal snd Hf)]. }
  destruct (run_checked env sw pre w0) as [[e|] w1]; cbn [snd fst] in *.
  { split.
    - left. split; [congruence | discriminate].
    - intros Hdep Hcc. destruct (Hframe Hcc) as (Hd & Ha).
      split; [apply Hdep; assumption | discriminate]. }
  rewrite run_checked_cons.
  pose proof (step_preserves_swarm_calls env sw StepAuth ltac:(discriminate) w1) as Hauth.
  pose proof (StepAuth_AuthOptions env sw w1 Hc) as Ha.
  destruct (step_action env sw StepAuth w1) as [[e|] w2]; cbn [snd fst] in *.
  { split.
    - left. split; [congruence | discriminate].
    - intros Hdep Hcc. destruct (Hframe Hcc) as (Hd & Ha').
      split; [apply Hdep; assumption | discriminate]. }
  rewrite run_checked_cons.
  pose proof (StepSwarm_log env sw w2) as Hs.
  assert (Hkeep : forall Hcc : (forall l c p,
              (DockerOptionsDir (fst (collab env l c p)),
               ProvAuthOptions (fst (collab env l c p)))
              = (DockerOptionsDir p, ProvAuthOptions p)),
            ProvAuthOptions (prov (snd (step_action env sw StepSwarm w2)))
            = ProvAuthOptions (prov w2)).
  { intro Hcc.
    exact (step_preserves_field env _ ProvAuthOptions
             (fun l c p => f_equal snd (Hcc l c p)) sw StepSwarm
             (fun E => ltac:(discriminate E)) (fun E => ltac:(discriminate E)) w2). }
  destruct (step_action env sw StepSwarm w2) as [r w3]. cbn [snd fst] in *.
  assert (Hlog : log w3 =
    (log w2 ++ [EvSleep 2;
                EvCall (CallConfigureSwarm (mkSwarmOptions image (Membership sw))
                          (setRemoteAuthOptions env (prov w1)))])%list)
    by (rewrite Hs, Himg, Ha; reflexivity).
  assert (Hcalls : swarm_calls (log w3) =
    (swarm_calls (log w)
     ++ [(mkSwarmOptions image (Membership sw), setRemoteAuthOptions env (prov w1))])%list)
    by (rewrite Hlog, swarm_calls_app; simpl; congruence).
  assert (Hfinal : snd (match r with
                        | Some e => (Some e, w3)
                        | None => run_checked env sw [] w3
                        end) = w3) by (destruct r; reflexivity).
  rewrite Hfinal. split.
  - right. split; [now exists (log w2) | exact Hcalls].
  - intros Hdep Hcc. destruct (Hframe Hcc) as (Hd & Ha').
    split; [apply Hdep; assumption|].
    intros _. rewrite (Hkeep Hcc). exact Ha.
Qed.

Lemma Provision_configureSwarm_witness :
  let w' := snd (Provision env_ok (mkSwarmOptions "swarm:latest" ["master"])
                   zero_AuthOptions zero_EngineOptions opt_world) in
  let auth := mkAuthOptions "/opt/docker/ca.pem" "/opt/docker/server.pem"
                "/opt/docker/server-key.pem" in
  (forall l p,
     ProvAuthOptions (fst (collab env_ok l CallConfigureAuth p)) = ProvAuthOptions p)
  /\ ((swarm_calls (log w') = [] /\ None <> @None error)
      \/ ((exists l,
             log w' = (l ++ [EvSleep 2;
                             EvCall (CallConfigureSwarm
                                       (mkSwarmOptions "hypriot/rpi-swarm:latest"
                                          ["master"])
                                       auth)])%list)
          /\ swarm_calls (log w')
             = [(mkSwarmOptions "hypriot/rpi-swarm:latest" ["master"], auth)]))
  /\ ((forall p q, DockerOptionsDir p = DockerOptionsDir q ->
                   ProvAuthOptions p = ProvAuthOptions q ->
                   remote_paths p = remote_paths q) ->
      (forall l c p,
         (DockerOptionsDir (fst (collab env_ok l c p)),
          ProvAuthOptions (fst (collab env_ok l c p)))
         = (DockerOptionsDir p, ProvAuthOptions p)) ->
      auth = remote_paths (set_AuthOptions zero_AuthOptions (prov opt_world))
      /\ (@None error = None -> ProvAuthOptions (prov w') = auth)).
Proof.
  intros w' auth.
  split; [reflexivity|].
  apply (Provision_configureSwarm env_ok (mkSwarmOptions "swarm:latest" ["master"])
           zero_AuthOptions zero_EngineOptions opt_world).
  reflexivity.
Defined.

Example Provision_keeps_other_image :
  swarm_calls
    (log (snd (Provision env_ok (mkSwarmOptions "example/swarm:1.0" ["master"])
                 zero_AuthOptions zero_EngineOptions fresh_world)))
  = [(mkSwarmOptions "example/swarm:1.0" ["master"],
      mkAuthOptions "/etc/docker/ca.pem" "/etc/docker/server.pem"
        "/etc/docker/server-key.pem")].
Proof. vm_compute. reflexivity. Qed.

(** ** The package loop *)

Lemma range_Packages_cons (env : Env) (pkg : string) (pkgs : list string) (w : World) :
  range_Packages env (pkg :: pkgs) w
  = match Package env pkg Install w with
    | (Some e, w1) => (Some e, w1)
    | (None, w1) => range_Packages env pkgs w1
    end.
Proof.
  simpl. unfold check, bind, ret.
  destruct (Package env pkg Install w) as [[e|] w1]; reflexivity.
Qed.

(** X1: the loop over the packages issues the commands of
    [package_commands], in their order, up to the first that fails.  When it
    returns nil, it issued them all and each one succeeded.  When it returns
    an error, the commands before the last one it issued succeeded, the last
    one failed, and its error is the one returned.  The loop leaves the
    provisioner as it was. *)
Theorem range_Packages_trace (env : Env) (pkgs : list string) (w : World) :
  exists issued rest,
    snd (range_Packages env pkgs w) = mkWorld (prov w) (log w ++ issued)
    /\ package_commands pkgs = (issued ++ rest)%list
    /\ match fst (range_Packages env pkgs w) with
       | None => rest = [] /\ succeed_in_turn env (log w) issued
       | Some e =>
           exists before command,
             issued = (before ++ [EvSSH command])%list
             /\ succeed_in_turn env (log w) before
             /\ ssh env (log w ++ before) command = Some e
       end.
Proof.
  revert w. induction pkgs as [|pkg pkgs IH]; intro w.
  - exists [], []. simpl. rewrite app_nil_r. destruct w; auto.
  - rewrite range_Packages_cons.
    rewrite (Package_refreshing env pkg Install w) by discriminate.
    destruct (ssh env (log w) update_command) as [e|] eqn:E1.
    + exists [EvSSH update_command]. eexists. simpl.
      split; [reflexivity|]. split; [reflexivity|].
      exists [], update_command. rewrite app_nil_r. simpl. auto.
    + destruct (ssh env (log w ++ [EvSSH update_command])
                  (action_command "install" (package_alias pkg))) as [e|] eqn:E2.
      * exists [EvSSH update_command;
                EvSSH (action_command "install" (package_alias pkg))],
               (package_commands pkgs).
        simpl. rewrite <- app_assoc. split; [reflexivity|]. split; [reflexivity|].
        exists [EvSSH update_command], (action_command "install" (package_alias pkg)).
        simpl. auto.
      * match goal with
        | |- context [range_Packages env pkgs ?w1] =>
            destruct (IH w1) as (issued & rest & Hw & Hc & Hr);
            destruct (range_Packages env pkgs w1) as [r w2]
        end.
        simpl in Hw, Hr. simpl.
        exists ([EvSSH update_command;
                 EvSSH (action_command "install" (package_alias pkg))] ++ issued)%list,
               rest.
        split; [rewrite Hw; f_equal; now rewrite <- !app_assoc|].
        split; [simpl; now rewrite Hc|].
        destruct r as [e|].
        -- destruct Hr as (before & command & Hi & Hb & He).
           exists ([EvSSH update_command;
                    EvSSH (action_command "install" (package_alias pkg))]
                   ++ before)%list,
                  command.
           split; [rewrite Hi; reflexivity|].
           split; [simpl; auto|].
           rewrite <- He. f_equal. now rewrite <- !app_assoc.
        -- destruct Hr as (Hr & Hs). split; [exact Hr|]. simpl. auto.
Qed.

(** ** Repeated calls of GenerateDockerOptions, and what the template does
    not escape *)

Lemma after_calls_eq (n : nat) (dockerPort : Z) (w : World) :
  after_calls n dockerPort w
  = mkWorld
      (set_EngineOptions
         (set_Labels
            (Labels (ProvEngineOptions (prov w)) ++ repeat (driverNameLabel (prov w)) n)%list
            (ProvEngineOptions (prov w)))
         (prov w))
      (log w).
Proof.
  revert w. induction n as [|n IH]; intro w.
  - simpl. rewrite app_nil_r.
    destruct w as [[d1 d2 o pk oi dr so ao [sd ls ir rm af]] lg]. reflexivity.
  - cbn [after_calls]. rewrite GenerateDockerOptions_eq, IH. simpl.
    unfold set_EngineOptions, set_Labels, driverNameLabel. simpl.
    now rewrite <- app_assoc.
Qed.

(** X2: After [n] calls on a provisioner its labels are the original ones
    followed by [n] copies of the provider label, nothing else of the world
    has changed (no command was issued), and the next call renders the
    original labels followed by [n + 1] provider labels. *)
Theorem GenerateDockerOptions_after_calls (n : nat) (dockerPort : Z) (w : World) :
  let p := prov w in
  let e := ProvEngineOptions p in
  let a := ProvAuthOptions p in
  let provider := "provider=" ++ DriverName (ProvDriver p) in
  after_calls n dockerPort w
  = mkWorld (set_EngineOptions (set_Labels (Labels e ++ repeat provider n)%list e) p)
      (log w)
  /\ rendered (fst (GenerateDockerOptions dockerPort (after_calls n dockerPort w))) =
     Some (nl ++ "DOCKER_OPTS='-H tcp://0.0.0.0:" ++ Template.print_int dockerPort
           ++ " -H unix:///var/run/docker.sock --storage-driver " ++ StorageDriver e
           ++ " --tlsverify --tlscacert " ++ CaCertRemotePath a
           ++ " --tlscert " ++ ServerCertRemotePath a
           ++ " --tlskey " ++ ServerKeyRemotePath a ++ " "
           ++ concat_tokens (fun l => "--label " ++ l ++ " ")
                (Labels e ++ repeat provider (S n))%list
           ++ concat_tokens (fun r => "--insecure-registry " ++ r ++ " ")
                (InsecureRegistry e)
           ++ concat_tokens (fun m => "--registry-mirror " ++ m ++ " ")
                (RegistryMirror e)
           ++ concat_tokens (fun f => "--" ++ f ++ " ") (ArbitraryFlags e)
           ++ "'" ++ nl).
Proof.
  intros p e a provider. split; [apply after_calls_eq|].
  rewrite after_calls_eq, GenerateDockerOptions_eq.
  unfold rendered, render, render_header.
  cbn [fst option_map EngineOptionsContent]. f_equal.
  rewrite !string_app_assoc.
  cbn [prov context_of with_provider_label set_EngineOptions set_Labels
       ProvEngineOptions ProvAuthOptions ProvDriver CtxDockerPort CtxAuthOptions
       CtxEngineOptions Labels StorageDriver InsecureRegistry RegistryMirror
       ArbitraryFlags driverNameLabel].
  fold p e a. fold provider.
  replace (Labels e ++ repeat provider (S n))%list
    with ((Labels e ++ repeat provider n) ++ [provider])%list.
  - reflexivity.
  - rewrite <- app_assoc. f_equal.
    change [provider] with (repeat provider 1). rewrite <- repeat_app.
    f_equal. lia.
Qed.

(** X3: The template writes the values as they are: a label that contains
    [ --label ] renders as the two labels around it do, so that different
    engine options can render to the same text. *)
Theorem GenerateDockerOptions_label_not_escaped (dockerPort : Z) (p : Provisioner)
    (l : list Event) (before after : list string) (l1 l2 : string) :
  let e := ProvEngineOptions p in
  let p1 :=
    set_EngineOptions
      (set_Labels (before ++ [(l1 ++ " --label " ++ l2)%string] ++ after)%list e) p in
  let p2 := set_EngineOptions (set_Labels (before ++ [l1; l2] ++ after)%list e) p in
  rendered (fst (GenerateDockerOptions dockerPort (mkWorld p1 l)))
  = rendered (fst (GenerateDockerOptions dockerPort (mkWorld p2 l)))
  /\ Labels (ProvEngineOptions p1) <> Labels (ProvEngineOptions p2).
Proof.
  intros e p1 p2. split.
  - rewrite !GenerateDockerOptions_eq. unfold rendered, render.
    cbn [fst option_map EngineOptionsContent]. do 2 f_equal.
    subst p1 p2. simpl.
    rewrite <- !app_assoc, !concat_tokens_app. f_equal.
    simpl app. rewrite !concat_tokens_cons, <- !string_app_assoc. f_equal.
    unfold label_token. rewrite !string_app_assoc. reflexivity.
  - subst p1 p2. simpl. intro H.
    apply (f_equal (@List.length string)) in H.
    rewrite !length_app in H. simpl in H. lia.
Qed.


(** ** What Provision stores *)

(** X4: [Provision] stores the swarm options it was called with, and with the
    image the caller gave: the image it substitutes for "swarm:latest" goes
    to [configureSwarm] only.  The collaborators are taken to leave the
    stored swarm options alone. *)
Theorem Provision_stores_caller_SwarmOptions (env : Env) (sw : SwarmOptions)
    (au : AuthOptions) (en : EngineOptions) (w : World) :
  (forall l c p, ProvSwarmOptions (fst (collab env l c p)) = ProvSwarmOptions p) ->
  ProvSwarmOptions (prov (snd (Provision env sw au en w))) = sw.
Proof.
  intro Hc.
  rewrite (Provision_preserves_field env _ ProvSwarmOptions Hc sw au en w)
    by reflexivity.
  unfold Provision_begin, bind, modify_prov, get_prov, ret. simpl.
  destruct (String.eqb (StorageDriver en) ""); reflexivity.
Qed.

Lemma Provision_stores_caller_SwarmOptions_witness :
  (forall l c p, ProvSwarmOptions (fst (collab env_ok l c p)) = ProvSwarmOptions p)
  /\ ProvSwarmOptions
       (prov (snd (Provision env_ok (mkSwarmOptions "swarm:latest" ["master"])
                     zero_AuthOptions zero_EngineOptions fresh_world)))
     = mkSwarmOptions "swarm:latest" ["master"].
Proof.
  split; [reflexivity|].
  apply (Provision_stores_caller_SwarmOptions env_ok
           (mkSwarmOptions "swarm:latest" ["master"]) zero_AuthOptions
           zero_EngineOptions fresh_world).
  reflexivity.
Defined.

(** X5: A provisioner made by [NewHypriotProvisioner] keeps the paths and the
    OS-release identifier of the constructor through [Provision], whatever
    the options and however the run ends, so that [GenerateDockerOptions]
    afterwards names [/etc/default/docker] as the file of the options.  The
    collaborators are taken to leave these three fields alone. *)
Theorem Provision_keeps_constructor_paths (env : Env) (d : Driver) (l : list Event)
    (sw : SwarmOptions) (au : AuthOptions) (en : EngineOptions) (dockerPort : Z) :
  (forall l c p,
     (DockerOptionsDir (fst (collab env l c p)),
      DaemonOptionsFile (fst (collab env l c p)),
      OsReleaseID (fst (collab env l c p)))
     = (DockerOptionsDir p, DaemonOptionsFile p, OsReleaseID p)) ->
  let w' := snd (Provision env sw au en (mkWorld (NewHypriotProvisioner d) l)) in
  DockerOptionsDir (prov w') = "/etc/docker"
  /\ DaemonOptionsFile (prov w') = "/etc/default/docker"
  /\ OsReleaseID (prov w') = "raspbian"
  /\ option_map EngineOptionsPath (fst (fst (GenerateDockerOptions dockerPort w')))
     = Some "/etc/default/docker".
Proof.
  intros Hc w'.
  pose proof (Provision_preserves_field env _
                (fun p => (DockerOptionsDir p, DaemonOptionsFile p, OsReleaseID p))
                Hc sw au en (mkWorld (NewHypriotProvisioner d) l)
                (fun _ _ => eq_refl) (fun _ _ => eq_refl)) as H.
  fold w' in H.
  assert (H0 : (DockerOptionsDir (prov w'), DaemonOptionsFile (prov w'),
                OsReleaseID (prov w'))
               = ("/etc/docker", "/etc/default/docker", "raspbian")).
  { rewrite H. unfold Provision_begin, bind, modify_prov, get_prov, ret. simpl.
    destruct (String.eqb (StorageDriver en) ""); reflexivity. }
  inversion H0 as [[H1 H2 H3]].
  split; [reflexivity|]. split; [reflexivity|]. split; [reflexivity|].
  rewrite GenerateDockerOptions_eq. simpl. now rewrite H2.
Qed.

Lemma Provision_keeps_constructor_paths_witness :
  (forall l c p,
     (DockerOptionsDir (fst (collab env_apt_repo_fails l c p)),
      DaemonOptionsFile (fst (collab env_apt_repo_fails l c p)),
      OsReleaseID (fst (collab env_apt_repo_fails l c p)))
     = (DockerOptionsDir p, DaemonOptionsFile p, OsReleaseID p))
  /\ DaemonOptionsFile
       (prov (snd (Provision env_apt_repo_fails (mkSwarmOptions "swarm:latest" [])
                     zero_AuthOptions zero_EngineOptions
                     (mkWorld (NewHypriotProvisioner (mkDriver "pi1" "generic")) []))))
     = "/etc/default/docker".
Proof.
  split; [reflexivity|].
  apply (Provision_keeps_constructor_paths env_apt_repo_fails
           (mkDriver "pi1" "generic") [] (mkSwarmOptions "swarm:latest" [])
           zero_AuthOptions zero_EngineOptions 2376).
  reflexivity.
Defined.

(** ** What Provision issues, in any run *)

Lemma emits_ret {A : Type} (P : Event -> Prop) (a : A) : emits P (ret a).
Proof. intro w. exists []. simpl. now rewrite app_nil_r. Qed.

Lemma emits_bind {A B : Type} (P : Event -> Prop) (m : M A) (k : A -> M B) :
  emits P m -> (forall a, emits P (k a)) -> emits P (bind m k).
Proof.
  intros Hm Hk w. unfold bind.
  destruct (Hm w) as (e1 & H1 & F1). destruct (m w) as [a w1]. simpl in H1.
  destruct (Hk a w1) as (e2 & H2 & F2).
  exists (e1 ++ e2)%list. split.
  - now rewrite H2, H1, app_assoc.
  - apply Forall_app. now split.
Qed.

Lemma emits_check (P : Event -> Prop) (m k : M (option error)) :
  emits P m -> emits P k -> emits P (check m k).
Proof.
  intros Hm Hk. unfold check. apply emits_bind; [assumption|].
  intros [e|]; [apply emits_ret | assumption].
Qed.

Lemma emits_get_prov (P : Event -> Prop) : emits P get_prov.
Proof. intro w. exists []. simpl. now rewrite app_nil_r. Qed.

Lemma emits_modify_prov (P : Event -> Prop) (f : Provisioner -> Provisioner) :
  emits P (modify_prov f).
Proof. intro w. exists []. simpl. now rewrite app_nil_r. Qed.

Lemma emits_emit (P : Event -> Prop) (e : Event) : P e -> emits P (emit e).
Proof. intros He w. exists [e]. simpl. auto. Qed.

Lemma emits_SSHCommand (env : Env) (P : Event -> Prop) (command : string) :
  P (EvSSH command) -> emits P (SSHCommand env command).
Proof. intros He w. exists [EvSSH command]. simpl. auto. Qed.

Lemma emits_call (env : Env) (P : Event -> Prop) (c : Call) :
  P (EvCall c) -> emits P (call env c).
Proof.
  intros He w. exists [EvCall c]. unfold call.
  destruct (collab env (log w) c (prov w)) as [p' r]. simpl. auto.
Qed.

Lemma emits_Package_Install (env : Env) (name : string) :
  emits Provision_event (Package env name Install).
Proof.
  unfold Package. cbv zeta beta iota.
  apply emits_check; [apply emits_SSHCommand, PE_update|].
  apply emits_check; [|apply emits_ret].
  apply emits_SSHCommand.
  apply (PE_install (if String.eqb name "docker" then "docker-hypriot" else name)).
Qed.

Lemma emits_range_Packages (env : Env) (pkgs : list string) :
  emits Provision_event (range_Packages env pkgs).
Proof.
  induction pkgs as [|pkg pkgs IH]; simpl.
  - apply emits_ret.
  - apply emits_check; [apply emits_Package_Install | exact IH].
Qed.

Lemma emits_probe (env : Env) (command : string) (yes no : M bool) :
  Provision_event (EvSSH command) ->
  emits Provision_event yes -> emits Provision_event no ->
  emits Provision_event
    (bind (SSHCommand env command)
       (fun err => match err with Some _ => no | None => yes end)).
Proof.
  intros Hc Hy Hn. apply emits_bind; [now apply emits_SSHCommand|].
  intros [e|]; assumption.
Qed.

Lemma emits_WaitFor (env : Env) (probe : M bool) :
  emits Provision_event probe -> emits Provision_event (WaitFor env probe).
Proof.
  intro Hp. unfold WaitFor.
  induction (waitAttempts env) as [|n IH]; simpl.
  - apply emits_ret.
  - apply emits_bind; [exact Hp|].
    intros [|]; [apply emits_ret | exact IH].
Qed.

Lemma emits_step (env : Env) (sw : SwarmOptions) (s : Step) :
  emits Provision_event (step_action env sw s).
Proof.
  destruct s; simpl.
  - apply emits_bind; [apply emits_get_prov|]. intro p.
    apply emits_call, PE_SetHostname.
  - apply emits_bind; [apply emits_get_prov|]. intro p.
    unfold setHostnameHypriot.
    apply emits_check; [|apply emits_ret].
    apply emits_SSHCommand, PE_hostname_file.
  - apply emits_Package_Install.
  - unfold setHypriotAptRepo.
    apply emits_check; [|apply emits_ret].
    apply emits_SSHCommand, PE_apt_repo.
  - apply emits_bind.
    + apply emits_probe; [apply PE_type_docker | apply emits_ret | apply emits_ret].
    + intro installed. apply emits_bind; [|intro; apply emits_ret].
      destruct (negb installed); [apply emits_modify_prov | apply emits_ret].
  - apply emits_bind; [apply emits_get_prov|]. intro p. apply emits_range_Packages.
  - apply emits_bind.
    + apply emits_probe; [apply PE_status | apply emits_ret | apply emits_ret].
    + intro running. destruct (negb running); [|apply emits_ret].
      unfold Service. cbv zeta.
      apply emits_check; [|apply emits_ret].
      apply emits_SSHCommand, PE_start.
  - apply emits_WaitFor.
    apply emits_probe; [apply PE_version | apply emits_ret | apply emits_ret].
  - apply emits_call, PE_options_dir.
  - apply emits_bind; [|intros _; apply emits_call, PE_auth].
    apply emits_bind; [apply emits_get_prov|]. intro p. apply emits_modify_prov.
  - apply emits_bind; [apply emits_emit, PE_sleep|]. intros _.
    apply emits_bind; [apply emits_get_prov|]. intro p.
    apply emits_call, PE_swarm.
Qed.

Lemma emits_run_checked (env : Env) (sw : SwarmOptions) (steps : list Step) :
  emits Provision_event (run_checked env sw steps).
Proof.
  induction steps as [|s steps IH]; simpl.
  - apply emits_ret.
  - apply emits_check; [apply emits_step | exact IH].
Qed.

(** X6: in every run, whatever fails, [Provision] only adds to the log, and
    what it adds itself is of the forms of [Provision_event]: the call of a
    collaborator, the pause, or one of the commands of its own statements.
    Among the commands of its own statements there is no removal of a package
    and no stop or restart of the docker service.  What a collaborator does
    on the host during its call is inside the call event and is not
    covered. *)
Theorem Provision_own_commands (env : Env) (sw : SwarmOptions)
    (au : AuthOptions) (en : EngineOptions) (w : World) :
  exists evs,
    log (snd (Provision env sw au en w)) = (log w ++ evs)%list
    /\ Forall Provision_event evs
    /\ (forall name,
          ~ In (EvSSH ("DEBIAN_FRONTEND=noninteractive sudo -E apt-get remove -y "
                       ++ name)) evs)
    /\ ~ In (EvSSH "sudo service docker stop") evs
    /\ ~ In (EvSSH "sudo service docker restart") evs.
Proof.
  rewrite Provision_run_checked.
  destruct (emits_run_checked env sw pipeline (snd (Provision_begin sw au en w)))
    as (evs & Hlog & Hall).
  exists evs. split.
  - rewrite Hlog. f_equal.
    unfold Provision_begin, bind, modify_prov, get_prov, ret. simpl.
    destruct (String.eqb (StorageDriver en) ""); reflexivity.
  - split; [exact Hall|].
    rewrite Forall_forall in Hall.
    repeat split.
    + intros name Hin. specialize (Hall _ Hin).
      remember (EvSSH ("DEBIAN_FRONTEND=noninteractive sudo -E apt-get remove -y "
                       ++ name)) as ev eqn:Hev.
      destruct Hall; simpl in Hev; discriminate Hev.
    + intro Hin. specialize (Hall _ Hin).
      remember (EvSSH "sudo service docker stop") as ev eqn:Hev.
      destruct Hall; simpl in Hev; discriminate Hev.
    + intro Hin. specialize (Hall _ Hin).
      remember (EvSSH "sudo service docker restart") as ev eqn:Hev.
      destruct Hall; simpl in Hev; discriminate Hev.
Qed.

(** ** The steps, one by one *)

Lemma Package_Install_success (env : Env) (name : string) (w : World) :
  fst (Package env name Install w) = None ->
  snd (Package env name Install w)
  = mkWorld (prov w)
      (log w ++ [EvSSH update_command;
                 EvSSH (action_command "install" (package_alias name))]).
Proof.
  rewrite (Package_refreshing env name Install w) by discriminate.
  destruct (ssh env (log w) update_command) as [e|]; simpl; [discriminate|].
  intros _. now rewrite <- app_assoc.
Qed.

Lemma range_Packages_success (env : Env) (pkgs : list string) (w : World) :
  fst (range_Packages env pkgs w) = None ->
  snd (range_Packages env pkgs w)
  = mkWorld (prov w) (log w ++ package_commands pkgs).
Proof.
  revert w. induction pkgs as [|pkg pkgs IH]; intro w.
  - intros _. simpl. rewrite app_nil_r. now destruct w.
  - rewrite range_Packages_cons.
    pose proof (Package_Install_success env pkg w) as Hp.
    destruct (Package env pkg Install w) as [[e|] w1]; simpl in Hp;
      [discriminate|].
    intro H. rewrite (IH w1 H), (Hp eq_refl). simpl.
    now rewrite <- app_assoc.
Qed.

Lemma WaitFor_attempts_S (env : Env) (n : nat) (probe : M bool) (w : World) :
  WaitFor_attempts env (S n) probe w
  = match probe w with
    | (true, w1) => (None, w1)
    | (false, w1) => WaitFor_attempts env n probe w1
    end.
Proof.
  simpl. unfold bind, ret. destruct (probe w) as [[|] w1]; reflexivity.
Qed.

Lemma dockerDaemonResponding_eq (env : Env) (w : World) :
  dockerDaemonResponding env w
  = (match ssh env (log w) "sudo docker version" with
     | None => true
     | Some _ => false
     end,
     mkWorld (prov w) (log w ++ [EvSSH "sudo docker version"])).
Proof.
  unfold dockerDaemonResponding, bind, SSHCommand, ret. simpl.
  destruct (ssh env (log w) "sudo docker version"); reflexivity.
Qed.

Lemma WaitFor_attempts_success (env : Env) (n : nat) (w : World) :
  fst (WaitFor_attempts env n (dockerDaemonResponding env) w) = None ->
  exists polls,
    1 <= polls <= n
    /\ snd (WaitFor_attempts env n (dockerDaemonResponding env) w)
       = mkWorld (prov w) (log w ++ repeat (EvSSH "sudo docker version") polls)
    /\ ssh env (log w ++ repeat (EvSSH "sudo docker version") (polls - 1))
         "sudo docker version" = None
    /\ forall k, k < polls - 1 ->
         ssh env (log w ++ repeat (EvSSH "sudo docker version") k)
           "sudo docker version" <> None.
Proof.
  revert w. induction n as [|n IH]; intro w.
  - simpl. discriminate.
  - rewrite WaitFor_attempts_S, dockerDaemonResponding_eq.
    destruct (ssh env (log w) "sudo docker version") as [e|] eqn:E.
    + intro H. destruct (IH _ H) as (k & Hk & Hw & Hlast & Hbefore).
      cbn [prov log] in *.
      exists (S k). split; [lia|].
      split; [rewrite Hw; simpl; now rewrite <- app_assoc|].
      split.
      * replace (S k - 1) with (S (k - 1)) by lia.
        simpl. rewrite <- app_assoc in Hlast. exact Hlast.
      * intros j Hj. destruct j as [|j].
        -- simpl. rewrite app_nil_r, E. discriminate.
        -- simpl. specialize (Hbefore j ltac:(lia)).
           rewrite <- app_assoc in Hbefore. exact Hbefore.
    + intros _. exists 1. split; [lia|]. split; [reflexivity|].
      split; [simpl; now rewrite app_nil_r | intros k Hk; lia].
Qed.

(** The docker probe step: it never fails; it queues [docker] when the probe
    command failed and leaves the package list alone otherwise. *)
Lemma StepDockerInstall_eq (env : Env) (sw : SwarmOptions) (w : World) :
  step_action env sw StepDockerInstall w
  = (None,
     mkWorld
       (match ssh env (log w) "type docker" with
        | None => prov w
        | Some _ => set_Packages (Packages (prov w) ++ ["docker"]) (prov w)
        end)
       (log w ++ [EvSSH "type docker"])).
Proof.
  simpl. unfold bind, dockerDaemonInstalled, bind, SSHCommand, modify_prov, ret.
  simpl. destruct (ssh env (log w) "type docker") as [e|]; reflexivity.
Qed.

(** What each step adds to the log when it returns nil. *)
Lemma step_success_events (env : Env) (sw : SwarmOptions) (s : Step) (w : World) :
  fst (step_action env sw s w) = None ->
  exists evs,
    log (snd (step_action env sw s w)) = (log w ++ evs)%list
    /\ step_events env sw s w evs.
Proof.
  destruct s; intro H.
  - eexists. split; [|reflexivity].
    simpl. unfold bind, get_prov, SetHostname, call. simpl.
    now destruct (collab env _ _ (prov w)).
  - eexists. split; [|reflexivity].
    simpl. unfold bind, get_prov, setHostnameHypriot, check, bind, SSHCommand, ret.
    simpl. now destruct (ssh env _ _).
  - eexists. split; [|reflexivity].
    simpl in *. now rewrite (Package_Install_success env _ w H).
  - eexists. split; [|reflexivity].
    simpl. unfold setHypriotAptRepo, check, bind, SSHCommand, ret.
    simpl. now destruct (ssh env _ _).
  - eexists. split; [|reflexivity]. now rewrite StepDockerInstall_eq.
  - eexists. split; [|reflexivity].
    simpl in *. unfold bind, get_prov in *. simpl in *.
    now rewrite (range_Packages_success env _ w H).
  - eexists. split; [|reflexivity].
    simpl. unfold bind, dockerDaemonRunning, bind, SSHCommand, ret. simpl.
    destruct (ssh env (log w) "sudo service docker status") as [e|]; simpl;
      [|reflexivity].
    unfold Service, check, bind, SSHCommand, ret. simpl.
    destruct (ssh env _ _); simpl; now rewrite <- app_assoc.
  - simpl in *. unfold WaitFor in *.
    destruct (WaitFor_attempts_success env _ w H) as (k & Hk & Hw & Hl & Hb).
    exists (repeat (EvSSH "sudo docker version") k).
    split; [now rewrite Hw | now exists k].
  - eexists. split; [|reflexivity].
    simpl. unfold makeDockerOptionsDir, call.
    now destruct (collab env _ _ (prov w)).
  - eexists. split; [|reflexivity].
    simpl. unfold bind, get_prov, modify_prov, ConfigureAuth, call. simpl.
    now destruct (collab env _ _ _).
  - eexists. split; [|reflexivity]. apply StepSwarm_log.
Qed.

(** ** The package list through Provision, and the log of a run that
    succeeds *)

Lemma run_checked_success_chain (env : Env) (sw : SwarmOptions)
    (R : Step -> World -> World -> Prop) :
  (forall s w, fst (step_action env sw s w) = None ->
               R s w (snd (step_action env sw s w))) ->
  forall steps w,
    fst (run_checked env sw steps w) = None ->
    chain R steps w (snd (run_checked env sw steps w)).
Proof.
  intros HR steps. induction steps as [|s steps IH]; intros w H.
  - reflexivity.
  - rewrite run_checked_cons in *.
    specialize (HR s w).
    destruct (step_action env sw s w) as [[e|] w1]; [discriminate|].
    simpl in HR. exists w1. split; [now apply HR | now apply IH].
Qed.

Lemma Step_eq_dec_docker (s : Step) : {s = StepDockerInstall} + {s <> StepDockerInstall}.
Proof. destruct s; (now left) || (right; discriminate). Qed.

Lemma Step_eq_dec_auth (s : Step) : {s = StepAuth} + {s <> StepAuth}.
Proof. destruct s; (now left) || (right; discriminate). Qed.

Lemma step_success_effect (env : Env) (sw : SwarmOptions) (s : Step) (w : World) :
  (forall l c p, kept_fields (fst (collab env l c p)) = kept_fields p) ->
  fst (step_action env sw s w) = None ->
  step_effect env sw s w (snd (step_action env sw s w)).
Proof.
  intros Hc H. split; [now apply step_success_events|].
  assert (Hca : forall l p, ProvAuthOptions (fst (collab env l CallConfigureAuth p))
                            = ProvAuthOptions p).
  { intros l p. exact (f_equal snd (Hc l CallConfigureAuth p)). }
  assert (Hc3 : forall l c p,
            (ProvDriver (fst (collab env l c p)), DockerOptionsDir (fst (collab env l c p)),
             Packages (fst (collab env l c p)))
            = (ProvDriver p, DockerOptionsDir p, Packages p)).
  { intros l c p. pose proof (Hc l c p) as E. unfold kept_fields in E.
    inversion E. reflexivity. }
  destruct (Step_eq_dec_docker s) as [Hs|Hs].
  { subst s. rewrite StepDockerInstall_eq. simpl.
    destruct (ssh env (log w) "type docker") as [e|]; simpl;
      repeat split; auto using app_nil_r. }
  destruct (Step_eq_dec_auth s) as [Ha|Ha].
  { subst s.
    pose proof (step_preserves_field env _
                  (fun p => (ProvDriver p, DockerOptionsDir p, Packages p)) Hc3 sw
                  StepAuth (fun E => False_ind _ (Hs E)) (fun _ _ _ => eq_refl) w) as Hf.
    cbv beta in Hf.
    pose proof (StepAuth_AuthOptions env sw w Hca) as Hauth.
    inversion Hf as [[Hd Ho Hp]].
    repeat split; congruence. }
  pose proof (step_preserves_field env _ kept_fields Hc sw s
                (fun E => False_ind _ (Hs E)) (fun E => False_ind _ (Ha E)) w) as Hf.
  cbv beta in Hf. unfold kept_fields in Hf.
  inversion Hf as [[Hp Hd Ho Hau]].
  destruct s; try (now elim Hs); try (now elim Ha); repeat split; congruence.
Qed.

Lemma Provision_begin_frame (sw : SwarmOptions) (au : AuthOptions) (en : EngineOptions)
    (w : World) :
  log (snd (Provision_begin sw au en w)) = log w
  /\ Packages (prov (snd (Provision_begin sw au en w))) = Packages (prov w)
  /\ ProvDriver (prov (snd (Provision_begin sw au en w))) = ProvDriver (prov w)
  /\ DockerOptionsDir (prov (snd (Provision_begin sw au en w)))
     = DockerOptionsDir (prov w)
  /\ ProvAuthOptions (prov (snd (Provision_begin sw au en w))) = au.
Proof.
  unfold Provision_begin, bind, modify_prov, get_prov, ret. simpl.
  destruct (String.eqb (StorageDriver en) ""); auto 6.
Qed.

Lemma swarm_image_eq (sw : SwarmOptions) :
  swarm_image sw
  = mkSwarmOptions
      (if String.eqb (Image sw) "swarm:latest"
       then "hypriot/rpi-swarm:latest" else Image sw)
      (Membership sw).
Proof.
  unfold swarm_image, set_Image.
  destruct (String.eqb (Image sw) "swarm:latest"); [reflexivity | now destruct sw].
Qed.

(** X7: the log of a run that returns nil.  The collaborators are taken to
    leave the package list, the driver, the options directory and the auth
    options of the provisioner alone, and [setRemoteAuthOptions] to read only
    the last two.  Then the log [Provision] adds is: the hostname call and
    the hostname-file command for the machine name; the refresh and the
    install of apt-transport-https; the repository command; the docker probe;
    the refresh and the install of each package of the provisioner's list, in
    the list's order, followed by those of docker exactly when the probe
    command failed; the status probe, followed by the start of the service
    exactly when the status command failed; the polls of the daemon, of which
    the last one succeeded and the ones before it failed; the calls of the
    options directory, the auth and, after the pause, the swarm collaborator,
    this one with the auth options computed from the caller's.  The package
    list has grown by docker exactly when the probe command failed. *)
Theorem Provision_success_log (env : Env) (sw : SwarmOptions) (au : AuthOptions)
    (en : EngineOptions) (w : World) :
  (forall p q, DockerOptionsDir p = DockerOptionsDir q ->
               ProvAuthOptions p = ProvAuthOptions q ->
               setRemoteAuthOptions env p = setRemoteAuthOptions env q) ->
  (forall l c p,
     (Packages (fst (collab env l c p)), ProvDriver (fst (collab env l c p)),
      DockerOptionsDir (fst (collab env l c p)), ProvAuthOptions (fst (collab env l c p)))
     = (Packages p, ProvDriver p, DockerOptionsDir p, ProvAuthOptions p)) ->
  fst (Provision env sw au en w) = None ->
  let machine := GetMachineName (ProvDriver (prov w)) in
  let poll := EvSSH "sudo docker version" in
  let l1 :=
    (log w
     ++ [EvCall (CallSetHostname machine);
         EvSSH ("if [ -f /boot/occidentalis.txt ]; then sudo sed -i 's/^hostname.*=.*/hostname="
                ++ machine ++ "/g' /boot/occidentalis.txt; fi");
         EvSSH "sudo -E apt-get update";
         EvSSH "DEBIAN_FRONTEND=noninteractive sudo -E apt-get install -y apt-transport-https";
         EvSSH "if [ ! -f /etc/apt/sources.list.d/hypriot.list ] || grep -q repository.hypriot.com /etc/apt/sources.list.d/hypriot.list; then (curl https://packagecloud.io/gpg.key | sudo apt-key add -); echo 'deb https://packagecloud.io/Hypriot/Schatzkiste/debian/ wheezy main' | sudo tee /etc/apt/sources.list.d/hypriot.list; fi"])%list in
  let pkgs :=
    (Packages (prov w)
     ++ match ssh env l1 "type docker" with
        | None => []
        | Some _ => ["docker"]
        end)%list in
  let l2 := (l1 ++ EvSSH "type docker" :: package_commands pkgs)%list in
  let l3 :=
    (l2 ++ EvSSH "sudo service docker status"
           :: match ssh env l2 "sudo service docker status" with
              | None => []
              | Some _ => [EvSSH "sudo service docker start"]
              end)%list in
  let image :=
    if String.eqb (Image sw) "swarm:latest"
    then "hypriot/rpi-swarm:latest" else Image sw in
  let auth := setRemoteAuthOptions env (set_AuthOptions au (prov w)) in
  let w' := snd (Provision env sw au en w) in
  exists polls,
    1 <= polls <= waitAttempts env
    /\ ssh env (l3 ++ repeat poll (polls - 1)) "sudo docker version" = None
    /\ (forall k, k < polls - 1 ->
          ssh env (l3 ++ repeat poll k) "sudo docker version" <> None)
    /\ Packages (prov w') = pkgs
    /\ log w' =
       (l3 ++ repeat poll polls
        ++ [EvCall CallMakeDockerOptionsDir;
            EvCall CallConfigureAuth;
            EvSleep 2;
            EvCall (CallConfigureSwarm (mkSwarmOptions image (Membership sw)) auth)])%list.
Proof.
  intros Hdep Hc Hres machine poll l1 pkgs l2 l3 image auth w'. subst w'.
  rewrite Provision_run_checked in *.
  pose proof (run_checked_success_chain env sw (step_effect env sw)
                (fun s w => step_success_effect env sw s w Hc) pipeline _ Hres) as Hch.
  destruct (Provision_begin_frame sw au en w) as (Hl0 & Hp0 & Hd0 & Ho0 & Ha0).
  set (w0 := snd (Provision_begin sw au en w)) in *.
  set (wf := snd (run_checked env sw pipeline w0)) in *.
  clearbody w0 wf. clear Hres.
  unfold pipeline in Hch. cbn [chain] in Hch.
  destruct Hch as
    (w1 & ((e1 & L1 & E1) & D1 & O1 & P1 & A1)
     & w2 & ((e2 & L2 & E2) & D2 & O2 & P2 & A2)
     & w3 & ((e3 & L3 & E3) & D3 & O3 & P3 & A3)
     & w4 & ((e4 & L4 & E4) & D4 & O4 & P4 & A4)
     & w5 & ((e5 & L5 & E5) & D5 & O5 & P5 & A5)
     & w6 & ((e6 & L6 & E6) & D6 & O6 & P6 & A6)
     & w7 & ((e7 & L7 & E7) & D7 & O7 & P7 & A7)
     & w8 & ((e8 & L8 & (polls & Hpolls & E8 & Hlast & Hbefore)) & D8 & O8 & P8 & A8)
     & w9 & ((e9 & L9 & E9) & D9 & O9 & P9 & A9)
     & w10 & ((e10 & L10 & E10) & D10 & O10 & P10 & A10)
     & w11 & ((e11 & L11 & E11) & D11 & O11 & P11 & A11) & Hend).
  cbn [step_events] in *. subst wf.
  subst e1 e2 e3 e4 e5 e6 e7 e8 e9 e10 e11.
  assert (H4 : log w4 = l1).
  { rewrite L4, L3, L2, L1, Hl0, D1, Hd0.
    unfold l1, machine. repeat rewrite <- app_assoc. reflexivity. }
  assert (H5 : Packages (prov w5) = pkgs).
  { rewrite P5, P4, P3, P2, P1, Hp0, H4. reflexivity. }
  assert (H6 : log w6 = l2).
  { rewrite L6, L5, H4, H5. unfold l2. now rewrite <- app_assoc. }
  assert (H7 : log w7 = l3).
  { rewrite L7, H6. reflexivity. }
  assert (Hauth : ProvAuthOptions (prov w10) = auth).
  { rewrite A10. apply Hdep.
    - rewrite O9, O8, O7, O6, O5, O4, O3, O2, O1, Ho0. reflexivity.
    - rewrite A9, A8, A7, A6, A5, A4, A3, A2, A1, Ha0. reflexivity. }
  exists polls.
  split; [exact Hpolls|].
  split; [rewrite <- H7; exact Hlast|].
  split; [intros k Hk; rewrite <- H7; now apply Hbefore|].
  split; [rewrite P11, P10, P9, P8, P7, P6; exact H5|].
  rewrite L11, L10, L9, L8, H7, Hauth, swarm_image_eq.
  repeat rewrite <- app_assoc. reflexivity.
Qed.

Lemma Provision_success_log_witness :
  let sw := mkSwarmOptions "swarm:latest" ["master"] in
  let au := mkAuthOptions "ca" "cert" "key" in
  let w := mkWorld (set_Packages ["curl"]
                      (NewHypriotProvisioner (mkDriver "pi1" "generic"))) [] in
  let w' := snd (Provision env_probes_fail sw au zero_EngineOptions w) in
  (forall p q, DockerOptionsDir p = DockerOptionsDir q ->
               ProvAuthOptions p = ProvAuthOptions q ->
               setRemoteAuthOptions env_probes_fail p
               = setRemoteAuthOptions env_probes_fail q)
  /\ (forall l c p,
        (Packages (fst (collab env_probes_fail l c p)),
         ProvDriver (fst (collab env_probes_fail l c p)),
         DockerOptionsDir (fst (collab env_probes_fail l c p)),
         ProvAuthOptions (fst (collab env_probes_fail l c p)))
        = (Packages p, ProvDriver p, DockerOptionsDir p, ProvAuthOptions p))
  /\ fst (Provision env_probes_fail sw au zero_EngineOptions w) = None
  /\ exists polls,
       1 <= polls <= 3
       /\ Packages (prov w') = ["curl"; "docker"]
       /\ log w' =
          ([EvCall (CallSetHostname "pi1");
            EvSSH "if [ -f /boot/occidentalis.txt ]; then sudo sed -i 's/^hostname.*=.*/hostname=pi1/g' /boot/occidentalis.txt; fi";
            EvSSH "sudo -E apt-get update";
            EvSSH "DEBIAN_FRONTEND=noninteractive sudo -E apt-get install -y apt-transport-https";
            EvSSH "if [ ! -f /etc/apt/sources.list.d/hypriot.list ] || grep -q repository.hypriot.com /etc/apt/sources.list.d/hypriot.list; then (curl https://packagecloud.io/gpg.key | sudo apt-key add -); echo 'deb https://packagecloud.io/Hypriot/Schatzkiste/debian/ wheezy main' | sudo tee /etc/apt/sources.list.d/hypriot.list; fi";
            EvSSH "type docker";
            EvSSH "sudo -E apt-get update";
            EvSSH "DEBIAN_FRONTEND=noninteractive sudo -E apt-get install -y curl";
            EvSSH "sudo -E apt-get update";
            EvSSH "DEBIAN_FRONTEND=noninteractive sudo -E apt-get install -y docker-hypriot";
            EvSSH "sudo service docker status";
            EvSSH "sudo service docker start"]
           ++ repeat (EvSSH "sudo docker version") polls
           ++ [EvCall CallMakeDockerOptionsDir;
               EvCall CallConfigureAuth;
               EvSleep 2;
               EvCall (CallConfigureSwarm
                         (mkSwarmOptions "hypriot/rpi-swarm:latest" ["master"])
                         (mkAuthOptions "/etc/docker/ca.pem" "/etc/docker/server.pem"
                            "/etc/docker/server-key.pem"))])%list.
Proof.
  intros sw au w w'.
  assert (Hdep : forall p q, DockerOptionsDir p = DockerOptionsDir q ->
                 ProvAuthOptions p = ProvAuthOptions q ->
                 setRemoteAuthOptions env_probes_fail p
                 = setRemoteAuthOptions env_probes_fail q).
  { intros p q Hd _. simpl. unfold remote_paths. now rewrite Hd. }
  split; [exact Hdep|]. split; [reflexivity|]. split; [reflexivity|].
  destruct (Provision_success_log env_probes_fail sw au zero_EngineOptions w Hdep
              (fun _ _ _ => eq_refl) eq_refl)
    as (polls & Hpolls & _ & _ & Hpk & Hlog).
  exists polls. split; [exact Hpolls|]. split; [exact Hpk | exact Hlog].
Defined.

(** X8: in any run, [Provision] leaves the package list of the provisioner
    with one [docker] appended exactly when the four steps before the docker
    probe succeeded and the probe command [type docker] failed, and as it
    found it otherwise.  It never resets the list: a list that already holds
    [docker] gets a second one.  The collaborators are taken to leave the
    list alone. *)
Theorem Provision_Packages_grow (env : Env) (sw : SwarmOptions) (au : AuthOptions)
    (en : EngineOptions) (w : World) :
  (forall l c p, Packages (fst (collab env l c p)) = Packages p) ->
  let before_probe :=
    run_checked env sw [StepHostname; StepHostnameFile; StepAptTransport; StepAptRepo]
      (snd (Provision_begin sw au en w)) in
  Packages (prov (snd (Provision env sw au en w)))
  = (Packages (prov w)
     ++ match fst before_probe with
        | Some _ => []
        | None =>
            match ssh env (log (snd before_probe)) "type docker" with
            | None => []
            | Some _ => ["docker"]
            end
        end)%list.
Proof.
  intros Hc before_probe. subst before_probe. rewrite Provision_run_checked.
  destruct (Provision_begin_frame sw au en w) as (_ & Hp0 & _).
  set (w0 := snd (Provision_begin sw au en w)) in *. clearbody w0.
  assert (Hstep : forall s, s <> StepDockerInstall ->
            preserves (fun w => Packages (prov w)) (step_action env sw s)).
  { intros s Hs.
    apply (step_preserves_field env _ Packages Hc sw s);
      [intro E; now elim Hs | reflexivity]. }
  change pipeline with
    ([StepHostname; StepHostnameFile; StepAptTransport; StepAptRepo]
     ++ StepDockerInstall
        :: [StepPackages; StepServiceStart; StepWait; StepOptionsDir; StepAuth;
            StepSwarm])%list.
  rewrite run_checked_app.
  match goal with
  | |- context [run_checked env sw ?pre w0] =>
      pose proof (@preserves_run_checked env _ (fun w => Packages (prov w)) sw pre
                    (fun s Hin => Hstep s
                       ltac:(intro; subst s; simpl in Hin; intuition discriminate))
                    w0) as Hpre;
      destruct (run_checked env sw pre w0) as [[e|] w1]
  end; cbn [fst snd] in *.
  { rewrite app_nil_r. congruence. }
  rewrite run_checked_cons, StepDockerInstall_eq. cbv beta iota.
  match goal with
  | |- context [run_checked env sw ?post ?w2] =>
      pose proof (@preserves_run_checked env _ (fun w => Packages (prov w)) sw post
                    (fun s Hin => Hstep s
                       ltac:(intro; subst s; simpl in Hin; intuition discriminate))
                    w2) as Hpost
  end.
  cbv beta in Hpost. rewrite Hpost. cbn [prov].
  destruct (ssh env (log w1) "type docker") as [e|]; simpl.
  - congruence.
  - rewrite app_nil_r. congruence.
Qed.

Lemma Provision_Packages_grow_witness :
  (forall l c p, Packages (fst (collab env_probes_fail l c p)) = Packages p)
  /\ Packages (prov (snd (Provision env_probes_fail (mkSwarmOptions "swarm:latest" [])
                            zero_AuthOptions zero_EngineOptions
                            (mkWorld (set_Packages ["docker"]
                                        (NewHypriotProvisioner
                                           (mkDriver "pi1" "generic"))) []))))
     = ["docker"; "docker"].
Proof.
  split; [reflexivity|].
  apply (Provision_Packages_grow env_probes_fail (mkSwarmOptions "swarm:latest" [])
           zero_AuthOptions zero_EngineOptions
           (mkWorld (set_Packages ["docker"]
                       (NewHypriotProvisioner (mkDriver "pi1" "generic"))) [])).
  reflexivity.
Defined.


(** ** The TLS paths after Provision *)

(** X9: When [setRemoteAuthOptions] reads only the options directory and the auth
    options of the provisioner, and the collaborators leave these two alone:
    the auth options [Provision] leaves in the provisioner are the caller's,
    or the ones [setRemoteAuthOptions] computes from the caller's; after a run
    that returned nil they are the computed ones, and [GenerateDockerOptions]
    renders their three paths. *)
Theorem Provision_resolves_auth_paths (env : Env) (sw : SwarmOptions)
    (au : AuthOptions) (en : EngineOptions) (w : World) (dockerPort : Z) :
  (forall p q, DockerOptionsDir p = DockerOptionsDir q ->
               ProvAuthOptions p = ProvAuthOptions q ->
               setRemoteAuthOptions env p = setRemoteAuthOptions env q) ->
  (forall l c p,
     (DockerOptionsDir (fst (collab env l c p)), ProvAuthOptions (fst (collab env l c p)))
     = (DockerOptionsDir p, ProvAuthOptions p)) ->
  let resolved := setRemoteAuthOptions env (set_AuthOptions au (prov w)) in
  let w' := snd (Provision env sw au en w) in
  (ProvAuthOptions (prov w') = au \/ ProvAuthOptions (prov w') = resolved)
  /\ (fst (Provision env sw au en w) = None ->
      ProvAuthOptions (prov w') = resolved
      /\ exists sd rest,
           rendered (fst (GenerateDockerOptions dockerPort w')) =
           Some (nl ++ "DOCKER_OPTS='-H tcp://0.0.0.0:" ++ Template.print_int dockerPort
                 ++ " -H unix:///var/run/docker.sock --storage-driver " ++ sd
                 ++ " --tlsverify --tlscacert " ++ CaCertRemotePath resolved
                 ++ " --tlscert " ++ ServerCertRemotePath resolved
                 ++ " --tlskey " ++ ServerKeyRemotePath resolved ++ " " ++ rest)).
Proof.
  intros Hdep Hc resolved w'.
  set (g := fun p => (DockerOptionsDir p, ProvAuthOptions p)).
  assert (Hca : forall l c p,
            ProvAuthOptions (fst (collab env l c p)) = ProvAuthOptions p).
  { intros l c p. exact (f_equal snd (Hc l c p)). }
  assert (Hkey : (ProvAuthOptions (prov w') = au
                  /\ fst (Provision env sw au en w) <> None)
                 \/ ProvAuthOptions (prov w') = resolved).
  { subst w'. rewrite Provision_run_checked.
    set (w0 := snd (Provision_begin sw au en w)).
    assert (H0 : g (prov w0) = (DockerOptionsDir (prov w), au)).
    { unfold w0, g, Provision_begin, bind, modify_prov, get_prov, ret. simpl.
      destruct (String.eqb (StorageDriver en) ""); reflexivity. }
    clearbody w0.
    change pipeline with
      ([StepHostname; StepHostnameFile; StepAptTransport; StepAptRepo;
        StepDockerInstall; StepPackages; StepServiceStart; StepWait;
        StepOptionsDir] ++ [StepAuth; StepSwarm])%list.
    rewrite run_checked_app.
    match goal with
    | |- context [run_checked env sw ?pre w0] =>
        pose proof (@preserves_run_checked env _ (fun w => g (prov w)) sw pre
                      (fun s Hin => step_preserves_field env _ g Hc sw s
                         (fun _ _ _ => eq_refl)
                         ltac:(intro; subst s; simpl in Hin; intuition discriminate))
                      w0) as Hpre;
        destruct (run_checked env sw pre w0) as [[e|] w1]
    end; simpl in Hpre.
    { left. simpl. split; [|discriminate].
      rewrite H0 in Hpre. exact (f_equal snd Hpre). }
    rewrite run_checked_cons.
    pose proof (StepAuth_AuthOptions env sw w1 (fun l p => Hca l CallConfigureAuth p))
      as Ha.
    assert (Hres : setRemoteAuthOptions env (prov w1) = resolved).
    { apply Hdep.
      - rewrite H0 in Hpre. exact (f_equal fst Hpre).
      - rewrite H0 in Hpre. exact (f_equal snd Hpre). }
    destruct (step_action env sw StepAuth w1) as [[e|] w2]; simpl in Ha.
    { right. simpl. congruence. }
    rewrite run_checked_cons.
    pose proof (step_preserves_field env _ ProvAuthOptions Hca sw StepSwarm
                  (fun E => ltac:(discriminate E)) (fun E => ltac:(discriminate E)) w2)
      as Hs.
    destruct (step_action env sw StepSwarm w2) as [[e|] w3]; simpl in Hs;
      right; simpl; congruence. }
  split.
  - destruct Hkey as [[H _]|H]; auto.
  - intro Hnil. destruct Hkey as [[_ H]|H]; [now elim H|].
    split; [exact H|].
    rewrite GenerateDockerOptions_eq.
    set (c := context_of dockerPort (with_provider_label (prov w'))).
    assert (Hauth : CtxAuthOptions c = resolved) by exact H.
    exists (StorageDriver (CtxEngineOptions c)),
      (concat_tokens label_token (Labels (CtxEngineOptions c))
       ++ concat_tokens insecure_registry_token (InsecureRegistry (CtxEngineOptions c))
       ++ concat_tokens registry_mirror_token (RegistryMirror (CtxEngineOptions c))
       ++ concat_tokens flag_token (ArbitraryFlags (CtxEngineOptions c))
       ++ "'" ++ nl).
    unfold rendered, render, render_header.
    cbn [fst option_map EngineOptionsContent]. f_equal.
    rewrite Hauth. change (CtxDockerPort c) with dockerPort.
    rewrite !string_app_assoc. reflexivity.
Qed.

Lemma Provision_resolves_auth_paths_witness :
  let au := mkAuthOptions "ca" "cert" "key" in
  let w' := snd (Provision env_ok (mkSwarmOptions "swarm:latest" []) au
                   zero_EngineOptions fresh_world) in
  (forall p q, DockerOptionsDir p = DockerOptionsDir q ->
               ProvAuthOptions p = ProvAuthOptions q ->
               setRemoteAuthOptions env_ok p = setRemoteAuthOptions env_ok q)
  /\ (forall l c p,
        (DockerOptionsDir (fst (collab env_ok l c p)),
         ProvAuthOptions (fst (collab env_ok l c p)))
        = (DockerOptionsDir p, ProvAuthOptions p))
  /\ fst (Provision env_ok (mkSwarmOptions "swarm:latest" []) au
            zero_EngineOptions fresh_world) = None
  /\ ProvAuthOptions (prov w')
     = mkAuthOptions "/etc/docker/ca.pem" "/etc/docker/server.pem"
         "/etc/docker/server-key.pem".
Proof.
  intros au w'.
  assert (Hdep : forall p q, DockerOptionsDir p = DockerOptionsDir q ->
                 ProvAuthOptions p = ProvAuthOptions q ->
                 setRemoteAuthOptions env_ok p = setRemoteAuthOptions env_ok q).
  { intros p q Hd _. simpl. unfold remote_paths. now rewrite Hd. }
  split; [exact Hdep|]. split; [reflexivity|]. split; [reflexivity|].
  apply (Provision_resolves_auth_paths env_ok (mkSwarmOptions "swarm:latest" []) au
           zero_EngineOptions fresh_world 2376 Hdep (fun _ _ _ => eq_refl)).
  reflexivity.
Defined.

(** ** When Provision succeeds *)

Section Succeeds.

Variable env : Env.

(** Every command other than the two probes succeeds, every collaborator
    succeeds, and the readiness wait has at least one attempt. *)
Hypothesis ssh_ok : forall l command,
  command <> "type docker" -> command <> "sudo service docker status" ->
  ssh env l command = None.
Hypothesis collab_ok : forall l c p, snd (collab env l c p) = None.
Hypothesis wait_ok : 1 <= waitAttempts env.

Lemma call_ok (c : Call) (w : World) : fst (call env c w) = None.
Proof.
  unfold call. pose proof (collab_ok (log w) c (prov w)) as H.
  now destruct (collab env (log w) c (prov w)).
Qed.

Lemma Package_Install_ok (name : string) (w : World) :
  fst (Package env name Install w) = None.
Proof.
  rewrite (Package_refreshing env name Install w) by discriminate.
  unfold update_command, action_command.
  rewrite ssh_ok by discriminate. simpl. apply ssh_ok; discriminate.
Qed.

Lemma range_Packages_ok (pkgs : list string) (w : World) :
  fst (range_Packages env pkgs w) = None.
Proof.
  revert w. induction pkgs as [|pkg pkgs IH]; intro w; [reflexivity|].
  rewrite range_Packages_cons.
  pose proof (Package_Install_ok pkg w) as H.
  destruct (Package env pkg Install w) as [[e|] w1]; [discriminate H | apply IH].
Qed.

Lemma step_ok (sw : SwarmOptions) (s : Step) (w : World) :
  fst (step_action env sw s w) = None.
Proof.
  destruct s; simpl.
  - unfold bind, get_prov. simpl. apply call_ok.
  - unfold bind, get_prov, setHostnameHypriot, check, bind, SSHCommand. simpl.
    rewrite ssh_ok by discriminate. reflexivity.
  - apply Package_Install_ok.
  - unfold setHypriotAptRepo, check, bind, SSHCommand. simpl.
    rewrite ssh_ok by discriminate. reflexivity.
  - change (fst (step_action env sw StepDockerInstall w) = None).
    now rewrite StepDockerInstall_eq.
  - unfold bind, get_prov. simpl. apply range_Packages_ok.
  - unfold bind, dockerDaemonRunning, bind, SSHCommand, ret. simpl.
    destruct (ssh env (log w) "sudo service docker status"); simpl; [|reflexivity].
    unfold Service, check, bind, SSHCommand. simpl.
    rewrite ssh_ok by discriminate. reflexivity.
  - unfold WaitFor. destruct (waitAttempts env) as [|n]; [lia|].
    rewrite WaitFor_attempts_S, dockerDaemonResponding_eq.
    now rewrite ssh_ok by discriminate.
  - apply call_ok.
  - unfold bind, get_prov, modify_prov. simpl. apply call_ok.
  - unfold bind, Sleep, emit, get_prov. simpl. apply call_ok.
Qed.

Lemma run_checked_ok (sw : SwarmOptions) (steps : list Step) (w : World) :
  fst (run_checked env sw steps w) = None.
Proof.
  revert w. induction steps as [|s steps IH]; intro w; [reflexivity|].
  rewrite run_checked_cons.
  pose proof (step_ok sw s w) as H.
  destruct (step_action env sw s w) as [[e|] w1]; [discriminate H | apply IH].
Qed.

End Succeeds.

(** X10: the two probes never make [Provision] fail.  When every command
    other than [type docker] and [sudo service docker status] succeeds,
    every collaborator succeeds and the readiness wait has at least one
    attempt, [Provision] returns nil, for every provisioner and every
    options, whether the two probes succeed or fail. *)
Theorem Provision_succeeds_despite_probes (env : Env) (sw : SwarmOptions)
    (au : AuthOptions) (en : EngineOptions) (w : World) :
  (forall l command,
     command <> "type docker" -> command <> "sudo service docker status" ->
     ssh env l command = None) ->
  (forall l c p, snd (collab env l c p) = None) ->
  1 <= waitAttempts env ->
  fst (Provision env sw au en w) = None.
Proof.
  intros Hs Hc Hw. rewrite Provision_run_checked.
  now apply run_checked_ok.
Qed.

Lemma Provision_succeeds_despite_probes_witness :
  (forall l command,
     command <> "type docker" -> command <> "sudo service docker status" ->
     ssh env_probes_fail l command = None)
  /\ (forall l c p, snd (collab env_probes_fail l c p) = None)
  /\ 1 <= waitAttempts env_probes_fail
  /\ ssh env_probes_fail [] "type docker" = Some "exit status 1"
  /\ fst (Provision env_probes_fail (mkSwarmOptions "swarm:latest" [])
            zero_AuthOptions zero_EngineOptions fresh_world) = None.
Proof.
  assert (Hs : forall l command,
            command <> "type docker" -> command <> "sudo service docker status" ->
            ssh env_probes_fail l command = None).
  { intros l command H1 H2. simpl.
    apply String.eqb_neq in H1. apply String.eqb_neq in H2.
    now rewrite H1, H2. }
  split; [exact Hs|]. split; [reflexivity|]. split; [simpl; lia|].
  split; [reflexivity|].
  apply (Provision_succeeds_despite_probes env_probes_fail
           (mkSwarmOptions "swarm:latest" []) zero_AuthOptions zero_EngineOptions
           fresh_world Hs); [reflexivity | simpl; lia].
Defined.
